(** * A verified model of the static code analyzer (code_analyzer.py)

    The analyzer reads a Python file, runs seven line-shaped checks (S001-S007)
    over its lines and five syntax-tree checks (S008-S012) over its parsed tree,
    and returns the violations sorted by line number and code.

    The development follows the source function by function.  Python values are
    embedded as follows:
    - [str] is [string]; a character is a code point below 256, so the Unicode
      tables of [str.isspace], [str.lower] and the regex class [\w] are the
      Latin-1 parts of Python's tables;
    - [int] line numbers and indices are [nat] (they are never negative here);
    - a raised exception is the [Raise] branch of [result];
    - the objects of module [ast] are the mutually defined types of [Module ast];
    - [open(...).read()] and [ast.parse] are the two collaborators of the file
      driver and are the Variables of [Section Driver]. *)

From Stdlib Require Import List Arith PeanoNat Lia Bool Ascii String NArith.
From Stdlib Require Import Sorted Permutation OrdersEx DecimalString.
Import ListNotations.

Local Open Scope string_scope.
Local Open Scope nat_scope.
Local Open Scope list_scope.

(** ** Exceptions *)

Inductive exception : Type :=
| OSError
| SyntaxError
| ValueError
| IndexError
| KeyError.

Inductive result (A : Type) : Type :=
| Ok (a : A)
| Raise (e : exception).

Arguments Ok {A} a.
Arguments Raise {A} e.

Definition bind {A B : Type} (m : result A) (k : A -> result B) : result B :=
  match m with
  | Ok a => k a
  | Raise e => Raise e
  end.

Notation "x <- m ;; k" := (bind m (fun x => k))
  (at level 61, m at next level, right associativity).

(** ** The methods of [str] the analyzer calls *)

Module Str.

Definition code (c : ascii) : N := N_of_ascii c.

Definition in_range (lo hi : N) (c : ascii) : bool :=
  (lo <=? code c)%N && (code c <=? hi)%N.

(** [str.isspace] on one character: TAB..CR, FS..US, space, NEL, NBSP. *)
Definition isspace (c : ascii) : bool :=
  in_range 9 13 c || in_range 28 32 c || (code c =? 133)%N || (code c =? 160)%N.

(** [str.isalnum] on one character: letters, decimal digits and the other
    numeric characters (superscripts, vulgar fractions) below 256. *)
Definition isalnum (c : ascii) : bool :=
  in_range 48 57 c || in_range 65 90 c || in_range 97 122 c
  || (code c =? 170)%N || (code c =? 181)%N || (code c =? 186)%N
  || in_range 178 179 c || (code c =? 185)%N || in_range 188 190 c
  || in_range 192 214 c || in_range 216 246 c || in_range 248 255 c.

Definition len (s : string) : nat := String.length s.

(** [s.lstrip()] *)
Fixpoint lstrip (s : string) : string :=
  match s with
  | EmptyString => EmptyString
  | String c s' => if isspace c then lstrip s' else s
  end.

Definition mem (c : ascii) (chars : string) : bool :=
  existsb (Ascii.eqb c) (list_ascii_of_string chars).

(** [s.lstrip(chars)], [s.rstrip(chars)] and [s.strip(chars)] *)
Fixpoint lstrip_chars (chars s : string) : string :=
  match s with
  | EmptyString => EmptyString
  | String c s' => if mem c chars then lstrip_chars chars s' else s
  end.

Fixpoint rstrip_chars (chars s : string) : string :=
  match s with
  | EmptyString => EmptyString
  | String c s' =>
      match rstrip_chars chars s' with
      | EmptyString => if mem c chars then EmptyString else String c EmptyString
      | r => String c r
      end
  end.

Definition strip_chars (chars s : string) : string :=
  lstrip_chars chars (rstrip_chars chars s).

(** [s.rstrip()] *)
Fixpoint rstrip (s : string) : string :=
  match s with
  | EmptyString => EmptyString
  | String c s' =>
      match rstrip s' with
      | EmptyString => if isspace c then EmptyString else String c EmptyString
      | r => String c r
      end
  end.

(** [s.startswith(p)] and [s.endswith(p)] *)
Definition startswith (s p : string) : bool := String.prefix p s.

Fixpoint endswith (s p : string) : bool :=
  String.eqb s p
  || match s with
     | EmptyString => false
     | String _ s' => endswith s' p
     end.

(** [s.find(sub)]: the lowest index at which [sub] occurs, if any. *)
Fixpoint find (s sub : string) : option nat :=
  if startswith s sub then Some 0
  else match s with
       | EmptyString => None
       | String _ s' => option_map S (find s' sub)
       end.

(** [sub in s] *)
Definition contains (s sub : string) : bool :=
  match find s sub with
  | Some _ => true
  | None => false
  end.

(** [s.index(sub)]: as [find], but a missing [sub] raises [ValueError]. *)
Definition index (s sub : string) : result nat :=
  match find s sub with
  | Some i => Ok i
  | None => Raise ValueError
  end.

(** [s[a:b]] for [0 <= a <= b] *)
Definition slice (s : string) (a b : nat) : string := String.substring a (b - a) s.

(** [sep.join(parts)] *)
Definition join (sep : string) (parts : list string) : string := String.concat sep parts.

(** [s.lower()], character by character. *)
Definition lower_char (c : ascii) : ascii :=
  if in_range 65 90 c || in_range 192 214 c || in_range 216 222 c
  then ascii_of_N (code c + 32)
  else c.

Fixpoint lower (s : string) : string :=
  match s with
  | EmptyString => EmptyString
  | String c s' => String (lower_char c) (lower s')
  end.

(** The line boundaries of [str.splitlines]: LF, CR (and CR LF as one),
    VT, FF, FS, GS, RS and NEL. *)
Definition is_linebreak (c : ascii) : bool :=
  in_range 10 13 c || in_range 28 30 c || (code c =? 133)%N.

Definition string_rev_append (acc : list ascii) : string :=
  string_of_list_ascii (rev acc).

(** [cur] holds, in reverse, the characters of the line being read. *)
Fixpoint splitlines_from (cur : list ascii) (s : string) : list string :=
  match s with
  | EmptyString =>
      match cur with
      | [] => []
      | _ => [string_rev_append cur]
      end
  | String c s' =>
      if is_linebreak c then
        match s' with
        | String c' s'' =>
            if ((code c =? 13)%N && (code c' =? 10)%N)%bool
            then string_rev_append cur :: splitlines_from [] s''
            else string_rev_append cur :: splitlines_from [] s'
        | EmptyString => string_rev_append cur :: splitlines_from [] s'
        end
      else splitlines_from (c :: cur) s'
  end.

Definition splitlines (s : string) : list string := splitlines_from [] s.

(** [str(n)] for a non-negative [int] *)
Definition of_nat (n : nat) : string := NilZero.string_of_uint (Nat.to_uint n).

End Str.

(** ** The part of module [re] the analyzer uses

    Patterns are regular expressions over characters; matching is by
    derivatives.  [re.match] asks for a match at the start of the string,
    [re.fullmatch] for a match of the whole string; the analyzer only tests
    whether a match object is returned. *)

Module re.

Inductive pattern : Type :=
| Void
| Eps
| Lit (c : ascii)
| Class (p : ascii -> bool)
| Seq (r1 r2 : pattern)
| Alt (r1 r2 : pattern)
| Star (r : pattern).

(** [r+] *)
Definition Plus (r : pattern) : pattern := Seq r (Star r).

(** A literal word such as [class]. *)
Fixpoint Word (s : string) : pattern :=
  match s with
  | EmptyString => Eps
  | String c s' => Seq (Lit c) (Word s')
  end.

(** [\s], [\S] and [\w] of a [str] pattern *)
Definition space : ascii -> bool := Str.isspace.
Definition non_space (c : ascii) : bool := negb (Str.isspace c).
Definition word_char (c : ascii) : bool := Str.isalnum c || Ascii.eqb c "_".

Fixpoint nullable (r : pattern) : bool :=
  match r with
  | Void => false
  | Eps => true
  | Lit _ => false
  | Class _ => false
  | Seq r1 r2 => nullable r1 && nullable r2
  | Alt r1 r2 => nullable r1 || nullable r2
  | Star _ => true
  end.

Fixpoint deriv (c : ascii) (r : pattern) : pattern :=
  match r with
  | Void => Void
  | Eps => Void
  | Lit c' => if Ascii.eqb c c' then Eps else Void
  | Class p => if p c then Eps else Void
  | Seq r1 r2 =>
      if nullable r1
      then Alt (Seq (deriv c r1) r2) (deriv c r2)
      else Seq (deriv c r1) r2
  | Alt r1 r2 => Alt (deriv c r1) (deriv c r2)
  | Star r' => Seq (deriv c r') (Star r')
  end.

(** [re.fullmatch(r, s) is not None] *)
Fixpoint fullmatch (r : pattern) (s : string) : bool :=
  match s with
  | EmptyString => nullable r
  | String c s' => fullmatch (deriv c r) s'
  end.

(** [re.match(r, s) is not None]: some prefix of [s] matches [r]. *)
Fixpoint match_ (r : pattern) (s : string) : bool :=
  nullable r
  || match s with
     | EmptyString => false
     | String c s' => match_ (deriv c r) s'
     end.

End re.

(** ** Class [Error] *)

(** A value of the dictionary [Error.error_codes]: a message, or the two
    parts of a message around a name. *)
Inductive template : Type :=
| Text (s : string)
| Parts (l : list string).

Record Error : Type := mkError {
  path : string;
  line_num : nat;
  error_code : string;
  additional_info : list string   (* the tuple [*args] *)
}.

Definition error_codes : list (string * template) :=
  [ ("S001", Text "Too long");
    ("S002", Text "Indentation is not a multiple of four");
    ("S003", Text "Unnecessary semicolon");
    ("S004", Text "At least two spaces required before inline comments");
    ("S005", Text "TODO found");
    ("S006", Text "More than two blank lines preceding a code line");
    ("S007", Text "Too many spaces after construction_name(def or class)");
    ("S008", Parts ["Class name '"; "' should be written in CamelCase"]);
    ("S009", Parts ["Function name '"; "' should be written in snake_case"]);
    ("S010", Parts ["Argument name '"; "' should be written in snake_case"]);
    ("S011", Parts ["Variable '"; "' should be written in snake_case"]);
    ("S012", Text "The default argument value is mutable") ].

(** [d[key]]: a missing key raises [KeyError]. *)
Fixpoint getitem {V : Type} (d : list (string * V)) (key : string) : result V :=
  match d with
  | [] => Raise KeyError
  | (k, v) :: d' => if String.eqb k key then Ok v else getitem d' key
  end.

(** [t[0]] on a tuple or list: an empty one raises [IndexError]. *)
Definition item0 {A : Type} (t : list A) : result A :=
  match t with
  | [] => Raise IndexError
  | x :: _ => Ok x
  end.

(** The codes of the set [{'S008', 'S009', 'S010', 'S011'}]. *)
Definition naming_codes : list string := ["S008"; "S009"; "S010"; "S011"].

Definition is_naming_code (code : string) : bool :=
  existsb (String.eqb code) naming_codes.

(** The strings [sep.join(v)] iterates over: the items of a list, the
    characters of a string. *)
Definition template_items (t : template) : list string :=
  match t with
  | Text s => map (fun c => String c EmptyString) (list_ascii_of_string s)
  | Parts l => l
  end.

(** [Error.message] *)
Definition message (self : Error) : result string :=
  msg <- (if is_naming_code (error_code self) then
            name <- item0 (additional_info self) ;;
            t <- getitem error_codes (error_code self) ;;
            Ok (Str.join name (template_items t))
          else
            t <- getitem error_codes (error_code self) ;;
            match t with
            | Text s => Ok s
            | Parts l => Ok (Str.join ", " l)  (* not reached, see [list_valued_codes] *)
            end) ;;
  Ok (path self ++ ": Line " ++ Str.of_nat (line_num self) ++ ": "
      ++ error_code self ++ " " ++ msg)%string.

(** ** The line checks *)

Definition LF : string := String "010" EmptyString.

Definition indentation_check (line : string) : bool :=
  if negb ((Str.len line - Str.len (Str.lstrip line)) mod 4 =? 0) then true else false.

Definition semicolon_check (line : string) : result bool :=
  if Str.endswith line ";" && negb (Str.contains line "#") then Ok true
  else if Str.contains line ";" && Str.contains line "#" then
    i <- Str.index line ";" ;;
    j <- Str.index line "#" ;;
    if i <? j then Ok true else Ok false
  else Ok false.

(** [''.join(line[i-2:i])] is the slice itself. *)
Definition preceding_spaces_check (line : string) : result bool :=
  if Str.contains line "#" then
    i <- Str.index line "#" ;;
    if (2 <? i) && negb (String.eqb (Str.slice line (i - 2) i) "  ") then Ok true
    else Ok false
  else Ok false.

Definition todo_check (line : string) : result bool :=
  let line := Str.lower line in
  if Str.contains line "todo" && Str.contains line "#" then
    i <- Str.index line "todo" ;;
    j <- Str.index line "#" ;;
    if j <? i then Ok true else Ok false
  else Ok false.

(** ['(class|def) '] and ['(class|def) \S'] *)
Definition construction_name : re.pattern :=
  re.Seq (re.Alt (re.Word "class") (re.Word "def")) (re.Lit " ").

Definition construction_name_then_name : re.pattern :=
  re.Seq construction_name (re.Class re.non_space).

Definition spaces_after_construction_name (line : string) : bool :=
  let line := Str.lstrip line in
  if re.match_ construction_name line
     && negb (re.match_ construction_name_then_name line)
  then true else false.

(** ** The name checks *)

(** ['[A-Z]\w+'] *)
Definition camel_case : re.pattern :=
  re.Seq (re.Class (Str.in_range 65 90)) (re.Plus (re.Class re.word_char)).

(** ['_*[a-z0-9_]+'] *)
Definition snake_case : re.pattern :=
  re.Seq (re.Star (re.Lit "_"))
         (re.Plus (re.Class (fun c => Str.in_range 97 122 c || Str.in_range 48 57 c
                                      || Ascii.eqb c "_"))).

Definition camel_case_check (string : String.string) : bool :=
  if negb (re.match_ camel_case string) then true else false.

Definition snake_case_check (string : String.string) : bool :=
  if negb (re.fullmatch snake_case string) then true else false.

(** ** Loops over a list that grow the list [errors] *)

Fixpoint for_each {A S : Type} (body : S -> A -> result S) (items : list A) (s : S)
  : result S :=
  match items with
  | [] => Ok s
  | x :: rest => s' <- body s x ;; for_each body rest s'
  end.

(** [enumerate(l)] *)
Definition enumerate {A : Type} (l : list A) : list (nat * A) :=
  combine (seq 0 (List.length l)) l.

(** [l[a:b]] for [0 <= a <= b] *)
Definition list_slice {A : Type} (l : list A) (a b : nat) : list A :=
  firstn (b - a) (skipn a l).

Definition lines_eqb (l1 l2 : list string) : bool :=
  if list_eq_dec string_dec l1 l2 then true else false.

(** [if b: errors.append(e)] *)
Definition append_if (b : bool) (e : Error) (errors : list Error) : list Error :=
  if b then errors ++ [e] else errors.

(** ** [file_as_strings_analyzer]: the checks S001-S007 *)

(** The body of the loop over [enumerate(lines)]. *)
Definition check_line (file_path : string) (lines : list string)
    (errors : list Error) (item : nat * string) : result (list Error) :=
  let '(line_num, line) := item in
  let line := Str.strip_chars LF line in
  let errors := append_if (79 <? Str.len (Str.rstrip_chars LF line))
                  (mkError file_path (line_num + 1) "S001" []) errors in
  let errors := append_if (indentation_check line)
                  (mkError file_path (line_num + 1) "S002" []) errors in
  b <- semicolon_check line ;;
  let errors := append_if b (mkError file_path (line_num + 1) "S003" []) errors in
  b <- preceding_spaces_check line ;;
  let errors := append_if b (mkError file_path (line_num + 1) "S004" []) errors in
  b <- todo_check line ;;
  let errors := append_if b (mkError file_path (line_num + 1) "S005" []) errors in
  let errors := append_if ((2 <? line_num)
                           && lines_eqb (list_slice lines (line_num - 3) line_num)
                                        (repeat "" 3))
                  (mkError file_path (line_num + 1) "S006" []) errors in
  let errors := append_if (spaces_after_construction_name line)
                  (mkError file_path (line_num + 1) "S007" []) errors in
  Ok errors.

Definition file_as_strings_analyzer (file_path : string) (lines : list string)
  : result (list Error) :=
  for_each (check_line file_path lines) (enumerate lines) [].

(** ** The syntax tree of module [ast]

    The node classes the analyzer tells apart, those that own an [arguments]
    object, the shapes an assignment target can take, and [Other] for every
    remaining class, which the analyzer only walks through.  Fields are in the
    order of each class's [_fields].  Left out are the fields that hold no
    node, the [None] entries of a list, and the objects that carry nothing
    and have no children (expression contexts, operators): the analyzer reads
    none of them. *)

Module ast.

#[warnings="-register-all"]
Inductive node : Type :=
| Module_ (body : list node)
| ClassDef (lineno : nat) (name : string)
           (bases keywords body decorator_list : list node)
| FunctionDef (lineno : nat) (name : string) (args : arguments)
              (body decorator_list : list node) (returns : option node)
| AsyncFunctionDef (lineno : nat) (name : string) (args : arguments)
                   (body decorator_list : list node) (returns : option node)
| Lambda (args : arguments) (body : node)
| Assign (lineno : nat) (targets : list node) (value : node)
| Name (id : string)
| Attribute (value : node) (attr : string)
| Subscript (value slice : node)
| Tuple (elts : list node)
| List (elts : list node)
| Set_ (elts : list node)
| Dict (keys values : list node)
| Other (children : list node)
with arguments : Type :=
| mk_arguments (posonlyargs args : list arg) (vararg : option arg)
               (kwonlyargs : list arg) (kw_defaults : list node)
               (kwarg : option arg) (defaults : list node)
with arg : Type :=
| mk_arg (name : string) (annotation : option node).

(** An instance of [ast.AST]. *)
Inductive AST : Type :=
| Node (n : node)
| Arguments (a : arguments)
| Arg (a : arg).

(** The fields [args.args], [args.kw_defaults], [args.defaults] and
    [arg.arg]. *)
Definition args_of (a : arguments) : list arg :=
  match a with mk_arguments _ args _ _ _ _ _ => args end.

Definition kw_defaults_of (a : arguments) : list node :=
  match a with mk_arguments _ _ _ _ kw_defaults _ _ => kw_defaults end.

Definition defaults_of (a : arguments) : list node :=
  match a with mk_arguments _ _ _ _ _ _ defaults => defaults end.

Definition arg_of (a : arg) : string :=
  match a with mk_arg name _ => name end.

Definition opt {A : Type} (o : option A) : list A :=
  match o with
  | Some x => [x]
  | None => []
  end.

(** [ast.iter_child_nodes]: the nodes held by the fields, field by field. *)
Definition iter_child_nodes (x : AST) : list AST :=
  match x with
  | Node n =>
      match n with
      | Module_ body => map Node body
      | ClassDef _ _ bases keywords body decorator_list =>
          map Node (bases ++ keywords ++ body ++ decorator_list)
      | FunctionDef _ _ a body decorator_list returns
      | AsyncFunctionDef _ _ a body decorator_list returns =>
          Arguments a :: map Node (body ++ decorator_list ++ opt returns)
      | Lambda a body => [Arguments a; Node body]
      | Assign _ targets value => map Node (targets ++ [value])
      | Name _ => []
      | Attribute value _ => [Node value]
      | Subscript value slice => [Node value; Node slice]
      | Tuple elts | List elts | Set_ elts => map Node elts
      | Dict keys values => map Node (keys ++ values)
      | Other children => map Node children
      end
  | Arguments (mk_arguments posonlyargs args vararg kwonlyargs kw_defaults kwarg defaults) =>
      map Arg (posonlyargs ++ args ++ opt vararg ++ kwonlyargs)
      ++ map Node kw_defaults ++ map Arg (opt kwarg) ++ map Node defaults
  | Arg (mk_arg _ annotation) => map Node (opt annotation)
  end.

(** The number of objects in a tree. *)
Fixpoint size (n : node) : nat :=
  let sizes := fun l => list_sum (map size l) in
  let size_opt := fun o => match o with Some m => size m | None => 0 end in
  match n with
  | Module_ body => S (sizes body)
  | ClassDef _ _ bases keywords body decorator_list =>
      S (sizes bases + sizes keywords + sizes body + sizes decorator_list)
  | FunctionDef _ _ a body decorator_list returns
  | AsyncFunctionDef _ _ a body decorator_list returns =>
      S (size_arguments a + sizes body + sizes decorator_list + size_opt returns)
  | Lambda a body => S (size_arguments a + size body)
  | Assign _ targets value => S (sizes targets + size value)
  | Name _ => 1
  | Attribute value _ => S (size value)
  | Subscript value slice => S (size value + size slice)
  | Tuple elts | List elts | Set_ elts => S (sizes elts)
  | Dict keys values => S (sizes keys + sizes values)
  | Other children => S (sizes children)
  end
with size_arguments (a : arguments) : nat :=
  let size_opt_arg := fun o => match o with Some m => size_arg m | None => 0 end in
  match a with
  | mk_arguments posonlyargs args vararg kwonlyargs kw_defaults kwarg defaults =>
      S (list_sum (map size_arg posonlyargs) + list_sum (map size_arg args)
         + size_opt_arg vararg + list_sum (map size_arg kwonlyargs)
         + list_sum (map size kw_defaults) + size_opt_arg kwarg
         + list_sum (map size defaults))
  end
with size_arg (a : arg) : nat :=
  match a with
  | mk_arg _ annotation => S (match annotation with Some m => size m | None => 0 end)
  end.

Definition size_AST (x : AST) : nat :=
  match x with
  | Node n => size n
  | Arguments a => size_arguments a
  | Arg a => size_arg a
  end.

(** [ast.walk]: the loop [while todo: node = todo.popleft();
    todo.extend(iter_child_nodes(node)); yield node], run for at most
    [fuel] turns. *)
Fixpoint walk_todo (fuel : nat) (todo : list AST) : list AST :=
  match fuel with
  | 0 => []
  | S fuel' =>
      match todo with
      | [] => []
      | x :: rest => x :: walk_todo fuel' (rest ++ iter_child_nodes x)
      end
  end.

(** One turn per object of the tree empties the queue ([walk_todo_enough]). *)
Definition walk (tree : node) : list AST := walk_todo (size tree) [Node tree].

End ast.

(** ** [file_as_ast_analyzer]: the checks S008-S012 *)

(** [for arg in args.args: if snake_case_check(arg.arg): errors.append(...); break] *)
Fixpoint check_args (file_path : string) (lineno : nat) (function_name : string)
    (args : list ast.arg) (errors : list Error) : list Error :=
  match args with
  | [] => errors
  | arg :: rest =>
      if snake_case_check (ast.arg_of arg)
      then errors ++ [mkError file_path lineno "S010" [function_name]]
      else check_args file_path lineno function_name rest errors
  end.

(** [isinstance(d, ast.List) or isinstance(d, ast.Set) or isinstance(d, ast.Dict)] *)
Definition is_mutable_literal (default_arg : ast.node) : bool :=
  match default_arg with
  | ast.List _ | ast.Set_ _ | ast.Dict _ _ => true
  | _ => false
  end.

(** [for default_arg in args.defaults: if ...: errors.append(...)] *)
Fixpoint check_defaults (file_path : string) (lineno : nat)
    (defaults : list ast.node) (errors : list Error) : list Error :=
  match defaults with
  | [] => errors
  | default_arg :: rest =>
      check_defaults file_path lineno rest
        (append_if (is_mutable_literal default_arg)
           (mkError file_path lineno "S012" []) errors)
  end.

(** [if isinstance(node, ast.ClassDef): ...] *)
Definition visit_ClassDef (file_path : string) (node : ast.AST) (errors : list Error)
  : list Error :=
  match node with
  | ast.Node (ast.ClassDef lineno name _ _ _ _) =>
      let class_name := name in
      append_if (camel_case_check class_name)
        (mkError file_path lineno "S008" [class_name]) errors
  | _ => errors
  end.

(** [if isinstance(node, ast.FunctionDef): ...] *)
Definition visit_FunctionDef (file_path : string) (node : ast.AST) (errors : list Error)
  : list Error :=
  match node with
  | ast.Node (ast.FunctionDef lineno name args _ _ _) =>
      let function_name := name in
      let errors := append_if (snake_case_check function_name)
                      (mkError file_path lineno "S009" [function_name]) errors in
      let errors := check_args file_path lineno function_name (ast.args_of args) errors in
      check_defaults file_path lineno (ast.defaults_of args) errors
  | _ => errors
  end.

(** [if isinstance(node, ast.Assign) and isinstance(node.targets[0], ast.Name): ...] *)
Definition visit_Assign (file_path : string) (node : ast.AST) (errors : list Error)
  : result (list Error) :=
  match node with
  | ast.Node (ast.Assign lineno targets _) =>
      target <- item0 targets ;;
      match target with
      | ast.Name id =>
          let variable_name := id in
          Ok (append_if (snake_case_check variable_name)
                (mkError file_path lineno "S011" [variable_name]) errors)
      | _ => Ok errors
      end
  | _ => Ok errors
  end.

(** The body of the loop over [ast.walk(tree)]. *)
Definition visit (file_path : string) (errors : list Error) (node : ast.AST)
  : result (list Error) :=
  let errors := visit_ClassDef file_path node errors in
  let errors := visit_FunctionDef file_path node errors in
  visit_Assign file_path node errors.

Definition file_as_ast_analyzer (file_path : string) (tree : ast.node)
  : result (list Error) :=
  for_each (visit file_path) (ast.walk tree) [].

(** ** [sorted(errors, key=lambda error: (error.line_num, error.error_code))] *)

(** [a < b] on [str]: by code points, a proper prefix first. *)
Definition str_lt (a b : string) : bool :=
  match String_as_OT.compare a b with
  | Lt => true
  | _ => false
  end.

(** [k1 < k2] on tuples [(int, str)]: the first components decide unless
    they are equal. *)
Definition tuple_lt (k1 k2 : nat * string) : bool :=
  if fst k1 =? fst k2 then str_lt (snd k1) (snd k2) else fst k1 <? fst k2.

Definition sort_key (error : Error) : nat * string :=
  (line_num error, error_code error).

(** [sorted] is stable and compares keys with [<] only: every item is put,
    from the last to the first, in front of the first item whose key is not
    smaller than its own. *)
Fixpoint insert_sorted {A K : Type} (lt : K -> K -> bool) (key : A -> K)
    (x : A) (l : list A) : list A :=
  match l with
  | [] => [x]
  | y :: rest =>
      if lt (key y) (key x) then y :: insert_sorted lt key x rest
      else x :: y :: rest
  end.

Definition sorted {A K : Type} (lt : K -> K -> bool) (key : A -> K) (l : list A)
  : list A :=
  fold_right (insert_sorted lt key) [] l.

(** ** [static_code_analyzer]: the file driver *)

Section Driver.

(** [open(file_path, 'r').read()] and [ast.parse(code)] *)
Variable read : string -> result string.
Variable parse : string -> result ast.node.

Definition static_code_analyzer (file_path : string) : result (list Error) :=
  let errors := [] in
  code <- read file_path ;;
  let lines := Str.splitlines code in
  found <- file_as_strings_analyzer file_path lines ;;
  let errors := errors ++ found in
  tree <- parse code ;;
  found <- file_as_ast_analyzer file_path tree ;;
  let errors := errors ++ found in
  Ok (sorted tuple_lt sort_key errors).

(** The loop of [main] over the files found: the first failure ends the run. *)
Definition analyze_files (files : list string) : result (list Error) :=
  for_each (fun errors file_path =>
              found <- static_code_analyzer file_path ;;
              Ok (errors ++ found))
           files [].

End Driver.

(** ** Sample trees, as [ast.parse] builds them *)

Definition no_arguments : ast.arguments := ast.mk_arguments [] [] None [] [] None [].

Definition positional (names : list string) (defaults : list ast.node) : ast.arguments :=
  ast.mk_arguments [] (map (fun n => ast.mk_arg n None) names) None [] [] None defaults.

(** [pass] and a constant *)
Definition Pass : ast.node := ast.Other [].
Definition Constant : ast.node := ast.Other [].

(** ** [get_files] and [main] *)

(** [os.path.join(a, *p)] of [posixpath]: a component that starts with [/]
    replaces what came before it, any other is appended, after a [/] unless
    the path so far is empty or ends with one. *)
Definition join_component (path b : string) : string :=
  if Str.startswith b "/" then b
  else if String.eqb path "" || Str.endswith path "/" then (path ++ b)%string
  else (path ++ "/" ++ b)%string.

Definition os_path_join (a : string) (p : list string) : string :=
  fold_left join_component p a.

(** [l.pop()] on a list that is not empty *)
Definition pop {A : Type} (l : list A) : list A := removelast l.

Section Main.

(** [open(file_path, 'r').read()], [ast.parse(code)] and [os.walk(path)], the
    latter as the list of the triples [(root, dirs, files)] it yields. *)
Variable read : string -> result string.
Variable parse : string -> result ast.node.
Variable os_walk : string -> list (string * list string * list string).

(** The body of the loop over [os.walk(path)]: the state is
    [(path_files, full_path)].  [os.path.join( *full_path, file)] has at least
    the argument [file]. *)
Definition walk_step (state : list string * list string)
    (item : string * list string * list string) : list string * list string :=
  let '(path_files, full_path) := state in
  let '(root, dirs, files) := item in
  let full_path := full_path ++ [root] in
  let path_files :=
    match files with
    | [] => path_files
    | _ =>
        fold_left
          (fun path_files file =>
             let parts := full_path ++ [file] in
             path_files ++ [os_path_join (hd file parts) (tl parts)])
          files path_files
    end in
  let full_path := pop full_path in
  (path_files, full_path).

Definition get_files (path : string) : list string :=
  if Str.endswith path ".txt" || Str.endswith path ".py" then [path]
  else
    let path_files := [] in
    let full_path := [] in
    fst (fold_left walk_step (os_walk path) (path_files, full_path)).

(** [for error in errors: print(error.message())]: the lines printed so
    far, and how the loop ended. *)
Fixpoint print_all (errors : list Error) (stdout : list string)
  : list string * result unit :=
  match errors with
  | [] => (stdout, Ok tt)
  | error :: rest =>
      match message error with
      | Ok line => print_all rest (stdout ++ [line])
      | Raise e => (stdout, Raise e)
      end
  end.

(** [main], with [sys.argv] as argument: the lines printed and how the run
    ended. *)
Definition main (argv : list string) : list string * result unit :=
  match nth_error argv 1 with
  | None => ([], Raise IndexError)
  | Some file_path =>
      let files := get_files file_path in
      match analyze_files read parse files with
      | Raise e => ([], Raise e)
      | Ok errors => print_all errors []
      end
  end.

End Main.

(** * The vocabulary of the properties *)

(** ** What one turn of each loop appends *)

(** The value of a check that returned; [false] stands for a raise, which
    no line check does ([semicolon_check_eq], [preceding_spaces_check_total],
    [todo_check_total]). *)
Definition result_bool (r : result bool) : bool :=
  match r with
  | Ok b => b
  | Raise _ => false
  end.

(** Whether S006 fires at index [line_num]. *)
Definition blank_lines_before (lines : list string) (line_num : nat) : bool :=
  (2 <? line_num)
  && lines_eqb (list_slice lines (line_num - 3) line_num) (repeat "" 3).

(** What one turn of the loop of [file_as_strings_analyzer] appends. *)
Definition line_errors (file_path : string) (lines : list string)
    (item : nat * string) : list Error :=
  let line := Str.strip_chars LF (snd item) in
  let at_line := fun code => mkError file_path (fst item + 1) code [] in
  (if 79 <? Str.len (Str.rstrip_chars LF line) then [at_line "S001"] else [])
  ++ (if indentation_check line then [at_line "S002"] else [])
  ++ (if result_bool (semicolon_check line) then [at_line "S003"] else [])
  ++ (if result_bool (preceding_spaces_check line) then [at_line "S004"] else [])
  ++ (if result_bool (todo_check line) then [at_line "S005"] else [])
  ++ (if blank_lines_before lines (fst item) then [at_line "S006"] else [])
  ++ (if spaces_after_construction_name line then [at_line "S007"] else []).

(** What visiting a function definition appends. *)
Definition function_def_errors (file_path : string) (lineno : nat) (name : string)
    (args : ast.arguments) : list Error :=
  (if snake_case_check name then [mkError file_path lineno "S009" [name]] else [])
  ++ (if existsb (fun a => snake_case_check (ast.arg_of a)) (ast.args_of args)
      then [mkError file_path lineno "S010" [name]] else [])
  ++ map (fun _ => mkError file_path lineno "S012" [])
         (filter is_mutable_literal (ast.defaults_of args)).

(** The objects held by the trees of a queue. *)
Definition todo_size (todo : list ast.AST) : nat := list_sum (map ast.size_AST todo).

(** ** Violations *)

(** The violation has this code. *)
Definition has_code (code : string) (e : Error) : bool :=
  String.eqb (error_code e) code.

(** The line numbers and codes of a scan's violations. *)
Definition codes_of (r : result (list Error)) : result (list (nat * string)) :=
  errors <- r ;; Ok (map (fun e => (line_num e, error_code e)) errors).

(** A violation carries one subject name when its code is a naming code,
    and none otherwise. *)
Definition subject_matches_code (e : Error) : bool :=
  if is_naming_code (error_code e)
  then Nat.eqb (List.length (additional_info e)) 1
  else Nat.eqb (List.length (additional_info e)) 0.

(** ** The order of a report *)

(** The order of the keys the sort compares, and of two violations by
    their keys. *)
Definition str_le (a b : string) : Prop := a = b \/ String_as_OT.lt a b.

Definition key_le (k1 k2 : nat * string) : Prop :=
  fst k1 < fst k2 \/ (fst k1 = fst k2 /\ str_le (snd k1) (snd k2)).

Definition key_ordered (e1 e2 : Error) : Prop := key_le (sort_key e1) (sort_key e2).

(** The lexical order on strings: the first characters that differ decide,
    by their code points, and a prefix of a string comes before it. *)
Fixpoint lexical_le (a b : string) : Prop :=
  match a, b with
  | EmptyString, _ => True
  | String _ _, EmptyString => False
  | String c a', String d b' =>
      (Str.code c < Str.code d)%N \/ (c = d /\ lexical_le a' b')
  end.

(** [e1] may stand before [e2] in a report sorted ascending by line number
    and, on one line, by the lexical order of the codes. *)
Definition ordered (e1 e2 : Error) : Prop :=
  line_num e1 < line_num e2
  \/ (line_num e1 = line_num e2 /\ lexical_le (error_code e1) (error_code e2)).

Definition key_eqb (k1 k2 : nat * string) : bool :=
  Nat.eqb (fst k1) (fst k2) && String.eqb (snd k1) (snd k2).

(** ** Lines *)

(** The code portion of a line: the text before the first [#], the whole
    line when there is none. *)
Definition code_portion (line : string) : string :=
  match Str.find line "#" with
  | Some j => Str.slice line 0 j
  | None => line
  end.

(** Three consecutive empty lines start at index [k]. *)
Definition blank3 (lines : list string) (k : nat) : Prop :=
  nth k lines "-" = "" /\ nth (S k) lines "-" = "" /\ nth (S (S k)) lines "-" = "".

(** Some three consecutive lines of [lines] are empty. *)
Fixpoint has_blank_run (lines : list string) : bool :=
  match lines with
  | [] => false
  | _ :: rest => lines_eqb (firstn 3 lines) (repeat "" 3) || has_blank_run rest
  end.

(** The last line of [lines] is empty. *)
Definition ends_blank (lines : list string) : bool :=
  match rev lines with
  | [] => false
  | line :: _ => String.eqb line ""
  end.

(** ** Sample files, with the trees [ast.parse] returns for them *)

(** [def f(BadArg): pass] *)
Definition def_f_BadArg : ast.node :=
  ast.Module_ [ast.FunctionDef 1 "f" (positional ["BadArg"] []) [Pass] [] None].

(** [def f(lst=[]): pass] *)
Definition def_f_lst : ast.node :=
  ast.Module_ [ast.FunctionDef 1 "f" (positional ["lst"] [ast.List []]) [Pass] [] None].

(** [def f( *, lst=[]): pass] *)
Definition def_f_keyword_only : ast.node :=
  ast.Module_
    [ast.FunctionDef 1 "f"
       (ast.mk_arguments [] [] None [ast.mk_arg "lst" None] [ast.List []] None [])
       [Pass] [] None].



(** [a = BadName = 1] *)
Definition a_BadName : ast.node :=
  ast.Module_ [ast.Assign 1 [ast.Name "a"; ast.Name "BadName"] Constant].

(** [self.x = BadName = 1] *)
Definition attr_BadName : ast.node :=
  ast.Module_ [ast.Assign 1 [ast.Attribute (ast.Name "self") "x"; ast.Name "BadName"]
                 Constant].

(** [BadName = a = 1] *)
Definition BadName_a : ast.node :=
  ast.Module_ [ast.Assign 1 [ast.Name "BadName"; ast.Name "a"] Constant].

(** [class my_class: pass] *)
Definition class_my_class : ast.node :=
  ast.Module_ [ast.ClassDef 1 "my_class" [] [] [Pass] []].

(** The two lines [class my_class:] and [    x = 1;] *)
Definition two_line_file : string :=
  "class my_class:" ++ LF ++ "    x = 1;" ++ LF.

Definition two_line_tree : ast.node :=
  ast.Module_ [ast.ClassDef 1 "my_class" [] [] [ast.Assign 2 [ast.Name "x"] Constant] []].

(** The three lines [class my_class:], [    x = 1;] and [def f(a=[]): X = 1] *)
Definition three_line_file : string :=
  "class my_class:" ++ LF ++ "    x = 1;" ++ LF ++ "def f(a=[]): X = 1" ++ LF.

Definition three_line_tree : ast.node :=
  ast.Module_
    [ast.ClassDef 1 "my_class" [] [] [ast.Assign 2 [ast.Name "x"] Constant] [];
     ast.FunctionDef 3 "f" (positional ["a"] [ast.List []])
       [ast.Assign 3 [ast.Name "X"] Constant] [] None].

(** What one check adds over a whole file: the violation [code] at every
    line at which [fires] holds, given the index of the line and the line. *)
Definition at_lines (file_path : string) (lines : list string)
    (fires : nat -> string -> bool) (code : string) : list Error :=
  flat_map (fun item : nat * string =>
              if fires (fst item) (snd item)
              then [mkError file_path (fst item + 1) code []] else [])
           (enumerate lines).

(** ** For the properties of the rest of the code *)

(** The strings a pattern matches in full. *)
Inductive lang : re.pattern -> string -> Prop :=
| lang_Eps : lang re.Eps ""
| lang_Lit (c : ascii) : lang (re.Lit c) (String c "")
| lang_Class (p : ascii -> bool) (c : ascii) :
    p c = true -> lang (re.Class p) (String c "")
| lang_Seq (r1 r2 : re.pattern) (s1 s2 : string) :
    lang r1 s1 -> lang r2 s2 -> lang (re.Seq r1 r2) (s1 ++ s2)
| lang_Alt_l (r1 r2 : re.pattern) (s : string) :
    lang r1 s -> lang (re.Alt r1 r2) s
| lang_Alt_r (r1 r2 : re.pattern) (s : string) :
    lang r2 s -> lang (re.Alt r1 r2) s
| lang_Star_nil (r : re.pattern) : lang (re.Star r) ""
| lang_Star_app (r : re.pattern) (s1 s2 : string) :
    lang r s1 -> lang (re.Star r) s2 -> lang (re.Star r) (s1 ++ s2).

(** Every character of the string satisfies [p]. *)
Definition all_chars (p : ascii -> bool) (s : string) : bool :=
  forallb p (list_ascii_of_string s).

(** A character of [[a-z0-9_]]. *)
Definition snake_char (c : ascii) : bool :=
  Str.in_range 97 122 c || Str.in_range 48 57 c || Ascii.eqb c "_".

(** The string starts with a whitespace character. *)
Definition starts_with_space (s : string) : bool :=
  match s with
  | EmptyString => false
  | String c _ => Str.isspace c
  end.

(** The code is a key of [error_codes]. *)
Definition code_known (code : string) : bool :=
  existsb (String.eqb code) (map fst error_codes).

(** The codes of the line scan. *)
Definition line_codes : list string :=
  ["S001"; "S002"; "S003"; "S004"; "S005"; "S006"; "S007"].

(** The text [main] prints for a violation. *)
Definition printed_as (e : Error) (text : string) : Prop :=
  message e
  = Ok (path e ++ ": Line " ++ Str.of_nat (line_num e) ++ ": "
        ++ error_code e ++ " " ++ text)%string.

(** An assignment node without targets, which [ast.parse] never builds. *)
Definition targetless (x : ast.AST) : bool :=
  match x with
  | ast.Node (ast.Assign _ [] _) => true
  | _ => false
  end.

(** What visiting one object appends. *)
Definition node_errors (file_path : string) (x : ast.AST) : list Error :=
  match x with
  | ast.Node (ast.ClassDef lineno name _ _ _ _) =>
      if camel_case_check name then [mkError file_path lineno "S008" [name]] else []
  | ast.Node (ast.FunctionDef lineno name args _ _ _) =>
      function_def_errors file_path lineno name args
  | ast.Node (ast.Assign lineno (ast.Name id :: _) _) =>
      if snake_case_check id then [mkError file_path lineno "S011" [id]] else []
  | _ => []
  end.

(** [x] is the object [root] or lies below it. *)
Inductive descendant (root : ast.AST) : ast.AST -> Prop :=
| descendant_root : descendant root root
| descendant_child (x c : ast.AST) :
    descendant root x -> In c (ast.iter_child_nodes x) -> descendant root c.

(** [def outer():] holding [def Inner(): pass] *)
Definition nested_def : ast.node :=
  ast.Module_
    [ast.FunctionDef 1 "outer" no_arguments
       [ast.FunctionDef 2 "Inner" no_arguments [Pass] [] None] [] None].

(** The line [main] prints for a violation that [message] renders. *)
Definition rendered (e : Error) : string :=
  match message e with
  | Ok line => line
  | Raise _ => ""
  end.

(** A directory [proj] holding [a.py], the two-line file, and a directory
    [pkg] holding [b.py], which does not parse. *)
Definition sample_walk (path : string) : list (string * list string * list string) :=
  if String.eqb path "proj"
  then [("proj", ["pkg"], ["a.py"]); ("proj/pkg", [], ["b.py"])]
  else if String.eqb path "proj/pkg" then [("proj/pkg", [], ["b.py"])]
  else [].

(** What reading and parsing give in that directory. *)
Definition sample_read (path : string) : result string :=
  if String.eqb path "proj/a.py" then Ok two_line_file
  else if String.eqb path "proj/pkg/b.py" then Ok "def (:"
  else Raise OSError.

Definition sample_parse (code : string) : result ast.node :=
  if String.eqb code two_line_file then Ok two_line_tree else Raise SyntaxError.

(** The report of the two-line file. *)
Definition sample_report (file_path : string) : list Error :=
  [mkError file_path 1 "S008" ["my_class"]; mkError file_path 2 "S003" []].

(** * Properties *)

(** ** Sample runs *)

Example lstrip_ex : Str.lstrip "   x = 1" = "x = 1".
Proof. reflexivity. Qed.
Example strip_ex : Str.strip_chars (String "010" "") (String "010" ("ab" ++ String "010" "")) = "ab".
Proof. vm_compute. reflexivity. Qed.
Example splitlines_ex :
  Str.splitlines ("a" ++ String "010" "" ++ String "010" "" ++ "b" ++ String "013" (String "010" "c") ++ String "010" "")
  = ["a"; ""; "b"; "c"].
Proof. vm_compute. reflexivity. Qed.
Example find_ex : Str.find "x = 1  # todo" "todo" = Some 9.
Proof. reflexivity. Qed.
Example of_nat_ex : Str.of_nat 0 = "0" /\ Str.of_nat 120 = "120".
Proof. split; reflexivity. Qed.
Example endswith_ex : Str.endswith "a;" ";" = true /\ Str.endswith "a; " ";" = false.
Proof. split; reflexivity. Qed.

Example scan_ex1 :
  codes_of (file_as_strings_analyzer "t.py"
     ["x = 1;"; "   y = 2  # TODO"; ""; ""; ""; "class  A:"; "def f(): pass # x; y"; "print(a);  # b"])
  = Ok [(1, "S003"); (2, "S002"); (2, "S005"); (6, "S006"); (6, "S007"); (7, "S004"); (8, "S003")].
Proof. vm_compute. reflexivity. Qed.

Example name_ex :
  map snake_case_check ["f"; "_x1"; "BadName"; ""; "__init__"; "a-b"] = [false; false; true; true; false; true]
  /\ map camel_case_check ["my_class"; "MyClass"; "A"; "Ab"; "Ab c"] = [true; false; true; false; false].
Proof. vm_compute. split; reflexivity. Qed.

Example ast_ex1 :
  codes_of (file_as_ast_analyzer "t.py"
    (ast.Module_
       [ ast.ClassDef 1 "my_class" [] []
           [ ast.FunctionDef 2 "Bad" (positional ["self"; "A"; "B"] [ast.List []; ast.Dict [] []])
               [ ast.Assign 3 [ast.Name "X"; ast.Name "Y"] Constant ] [] None ] [];
         ast.Assign 5 [ast.Tuple [ast.Name "P"; ast.Name "Q"]] Constant ]))
  = Ok [(1, "S008"); (2, "S009"); (2, "S010"); (2, "S012"); (2, "S012"); (3, "S011")].
Proof. vm_compute. reflexivity. Qed.

Example sorted_ex :
  map sort_key (sorted tuple_lt sort_key
    [mkError "p" 3 "S011" ["X"]; mkError "p" 1 "S008" ["c"]; mkError "p" 1 "S001" [];
     mkError "p" 2 "S012" []; mkError "p" 10 "S002" []; mkError "p" 2 "S010" ["f"]])
  = [(1, "S001"); (1, "S008"); (2, "S010"); (2, "S012"); (3, "S011"); (10, "S002")].
Proof. vm_compute. reflexivity. Qed.

(** ** Searching for one character *)

Lemma startswith_char (c x : ascii) (s : string) :
  Str.startswith (String x s) (String c EmptyString) = Ascii.eqb c x.
Proof.
  unfold Str.startswith; cbn [String.prefix].
  destruct (Ascii.ascii_dec c x) as [->|Hne].
  - rewrite Ascii.eqb_refl. now destruct s.
  - symmetry. now apply Ascii.eqb_neq.
Qed.

Lemma find_char_cons (c x : ascii) (s : string) :
  Str.find (String x s) (String c EmptyString)
  = if Ascii.eqb c x then Some 0 else option_map S (Str.find s (String c EmptyString)).
Proof.
  change (Str.find (String x s) (String c EmptyString))
    with (if Str.startswith (String x s) (String c EmptyString) then Some 0
          else option_map S (Str.find s (String c EmptyString))).
  now rewrite startswith_char.
Qed.

Lemma find_char_nil (c : ascii) : Str.find EmptyString (String c EmptyString) = None.
Proof. reflexivity. Qed.

(** Searching the first [n] characters finds the same first occurrence, when
    it lies among them. *)
Lemma find_char_substring (c : ascii) (s : string) (n : nat) :
  Str.find (String.substring 0 n s) (String c EmptyString)
  = match Str.find s (String c EmptyString) with
    | Some i => if i <? n then Some i else None
    | None => None
    end.
Proof.
  revert n; induction s as [|x s IH]; intros n.
  - destruct n; reflexivity.
  - destruct n as [|n].
    + cbn [String.substring]. rewrite find_char_nil.
      destruct (Str.find (String x s) (String c EmptyString)); reflexivity.
    + cbn [String.substring]. rewrite !find_char_cons.
      destruct (Ascii.eqb c x); [reflexivity|].
      rewrite IH. destruct (Str.find s (String c EmptyString)) as [i|]; [|reflexivity].
      cbn [option_map]. change (S i <? S n) with (i <? n).
      now destruct (i <? n).
Qed.

Lemma index_of_find (s sub : string) (i : nat) :
  Str.find s sub = Some i -> Str.index s sub = Ok i.
Proof. unfold Str.index; now intros ->. Qed.

Lemma contains_find (s sub : string) :
  Str.contains s sub = true -> exists i, Str.find s sub = Some i.
Proof.
  unfold Str.contains; destruct (Str.find s sub) as [i|]; [eauto|discriminate].
Qed.

Lemma not_contains_find (s sub : string) :
  Str.contains s sub = false -> Str.find s sub = None.
Proof.
  unfold Str.contains; destruct (Str.find s sub); [discriminate|reflexivity].
Qed.

(** ** The line checks never raise *)

(** What [semicolon_check] computes. *)
Lemma semicolon_check_eq (line : string) :
  semicolon_check line
  = Ok (if Str.contains line "#" then Str.contains (code_portion line) ";"
        else Str.endswith line ";").
Proof.
  unfold semicolon_check, code_portion.
  destruct (Str.contains line "#") eqn:Hhash.
  - rewrite andb_false_r, andb_true_r.
    destruct (contains_find _ _ Hhash) as [j Hj]. rewrite Hj.
    unfold Str.slice. rewrite Nat.sub_0_r.
    unfold Str.contains at 2.
    rewrite find_char_substring.
    unfold Str.contains.
    destruct (Str.find line ";") as [i|] eqn:Hi.
    + rewrite (index_of_find _ _ _ Hi), (index_of_find _ _ _ Hj). cbn [bind].
      now destruct (i <? j).
    + reflexivity.
  - rewrite andb_true_r, andb_false_r.
    now destruct (Str.endswith line ";").
Qed.

Lemma preceding_spaces_check_total (line : string) :
  exists b, preceding_spaces_check line = Ok b.
Proof.
  unfold preceding_spaces_check.
  destruct (Str.contains line "#") eqn:Hhash; [|eauto].
  destruct (contains_find _ _ Hhash) as [i Hi].
  rewrite (index_of_find _ _ _ Hi). cbn [bind].
  destruct (_ && _); eauto.
Qed.

Lemma todo_check_total (line : string) : exists b, todo_check line = Ok b.
Proof.
  unfold todo_check.
  destruct (Str.contains (Str.lower line) "todo") eqn:Htodo; cbn [andb]; [|eauto].
  destruct (Str.contains (Str.lower line) "#") eqn:Hhash; [|eauto].
  destruct (contains_find _ _ Htodo) as [i Hi].
  destruct (contains_find _ _ Hhash) as [j Hj].
  rewrite (index_of_find _ _ _ Hi), (index_of_find _ _ _ Hj). cbn [bind].
  destruct (j <? i); eauto.
Qed.

Lemma contains_char_cons (c x : ascii) (s : string) :
  Str.contains (String x s) (String c EmptyString)
  = Ascii.eqb c x || Str.contains s (String c EmptyString).
Proof.
  unfold Str.contains. rewrite find_char_cons.
  destruct (Ascii.eqb c x); [reflexivity|].
  now destruct (Str.find s (String c EmptyString)).
Qed.

(** ** S003: the trailing-semicolon rule *)

(** C4: S003 should fire when the code of the line, the text before the
    first [#], ends with [;].  On [x = 1; y = 2  # both] the code is
    [x = 1; y = 2  ], which does not end with [;], with or without its
    trailing spaces, yet [semicolon_check] fires: with a [#] on the line it
    compares the index of the first [;] with the index of the [#], wherever
    the [;] stands.  The same code without the comment, [x = 1; y = 2], is
    checked at its end and does not fire. *)
Theorem semicolon_check_mid_code :
  let line := "x = 1; y = 2  # both" in
  code_portion line = "x = 1; y = 2  "
  /\ Str.endswith (code_portion line) ";" = false
  /\ Str.endswith (Str.rstrip (code_portion line)) ";" = false
  /\ semicolon_check line = Ok true
  /\ semicolon_check "x = 1; y = 2" = Ok false.
Proof. repeat split; reflexivity. Qed.

(** ** S005: the TODO rule *)

(** C5: S005 should fire whenever some [todo] stands after a [#].  The line
    [todo = 1  # TODO] has its [#] at index 10 and a [todo] at index 12, inside
    the comment, but [todo_check] compares the index of the first [todo]
    (index 0) with the index of the [#] and does not fire.  On
    [x = 1  # todo fix this] it fires. *)
Theorem todo_check_first_occurrence_only :
  let line := "todo = 1  # TODO" in
  Str.find (Str.lower line) "#" = Some 10
  /\ Str.slice (Str.lower line) 12 16 = "todo"
  /\ todo_check line = Ok false
  /\ todo_check "x = 1  # todo fix this" = Ok true.
Proof. repeat split; reflexivity. Qed.

(** ** Messages *)

(** The entries of [error_codes] that are lists are those of the naming
    codes, so [message] formats a list only by joining it around a name. *)
Lemma list_valued_codes (code : string) (l : list string) :
  getitem error_codes code = Ok (Parts l) -> is_naming_code code = true.
Proof.
  unfold error_codes; cbn [getitem].
  repeat match goal with
         | |- (if String.eqb ?k code then _ else _) = _ -> _ =>
             destruct (String.eqb_spec k code) as [<-|_];
             [intros H; first [discriminate H | reflexivity]|]
         end.
  discriminate.
Qed.

(** ** The subject name of a violation *)

(** C2: the subject of an S010 violation should be the offending argument.
    For [def f(BadArg): pass] the violation carries the function's name [f],
    and the message names [f] as the argument. *)
Theorem argument_violation_names_function :
  file_as_ast_analyzer "t.py" def_f_BadArg = Ok [mkError "t.py" 1 "S010" ["f"]]
  /\ message (mkError "t.py" 1 "S010" ["f"])
     = Ok "t.py: Line 1: S010 Argument name 'f' should be written in snake_case".
Proof. split; vm_compute; reflexivity. Qed.

(** ** Growing the list [errors] *)

Lemma append_if_app (b : bool) (e : Error) (errors : list Error) :
  append_if b e errors = errors ++ (if b then [e] else []).
Proof. destruct b; cbn [append_if]; [reflexivity | now rewrite app_nil_r]. Qed.

Lemma check_args_app file_path lineno function_name args errors :
  check_args file_path lineno function_name args errors
  = errors ++ check_args file_path lineno function_name args [].
Proof.
  induction args as [|a args IH]; cbn [check_args].
  - now rewrite app_nil_r.
  - destruct (snake_case_check (ast.arg_of a)); [reflexivity | exact IH].
Qed.

(** The loop over [args.args] adds one S010 violation when some argument
    fails the check, and nothing otherwise. *)
Lemma check_args_nil file_path lineno function_name args :
  check_args file_path lineno function_name args []
  = if existsb (fun a => snake_case_check (ast.arg_of a)) args
    then [mkError file_path lineno "S010" [function_name]]
    else [].
Proof.
  induction args as [|a args IH]; cbn [check_args existsb]; [reflexivity|].
  destruct (snake_case_check (ast.arg_of a)); [reflexivity | exact IH].
Qed.

(** The loop over [args.defaults] adds one S012 violation per default that
    is a list, set or dict display. *)
Lemma check_defaults_app file_path lineno defaults errors :
  check_defaults file_path lineno defaults errors
  = errors ++ map (fun _ => mkError file_path lineno "S012" [])
                  (filter is_mutable_literal defaults).
Proof.
  revert errors; induction defaults as [|d defaults IH]; intros errors;
    cbn [check_defaults filter].
  - now rewrite app_nil_r.
  - rewrite IH, append_if_app.
    destruct (is_mutable_literal d); cbn [map].
    + now rewrite <- app_assoc.
    + now rewrite app_nil_r.
Qed.

Lemma visit_FunctionDef_eq file_path lineno name args body decorator_list returns errors :
  visit file_path errors
    (ast.Node (ast.FunctionDef lineno name args body decorator_list returns))
  = Ok (errors ++ function_def_errors file_path lineno name args).
Proof.
  unfold visit, function_def_errors.
  cbn [visit_ClassDef visit_FunctionDef visit_Assign].
  rewrite check_defaults_app, check_args_app, check_args_nil, append_if_app.
  now rewrite <- !app_assoc.
Qed.

Lemma filter_has_code_same (code : string) (e : Error) {A : Type} (l : list A) :
  error_code e = code ->
  filter (has_code code) (map (fun _ => e) l) = map (fun _ => e) l.
Proof.
  intros He; induction l as [|x l IH]; cbn [map filter]; [reflexivity|].
  unfold has_code at 1. rewrite He, String.eqb_refl. now rewrite IH.
Qed.


(** ** S010: one argument violation per function *)




(** ** S012: mutable default values *)

(** C7: every default value that is a list, set or dict display should
    yield one S012 violation.  In [def f( *, lst=[]): pass] the default value
    of the keyword-only parameter [lst] is a list display; [ast.parse] holds
    it in [args.kw_defaults], the loop reads [args.defaults] only, and nothing
    is reported.  [def f(lst=[]): pass] yields its one S012 violation, and no
    S009 for [f]. *)
Theorem keyword_only_default_not_reported (file_path : string) :
  let args := ast.mk_arguments [] [] None [ast.mk_arg "lst" None] [ast.List []] None [] in
  def_f_keyword_only = ast.Module_ [ast.FunctionDef 1 "f" args [Pass] [] None]
  /\ ast.kw_defaults_of args = [ast.List []]
  /\ file_as_ast_analyzer file_path def_f_keyword_only = Ok []
  /\ file_as_ast_analyzer file_path def_f_lst = Ok [mkError file_path 1 "S012" []].
Proof. repeat split; reflexivity. Qed.

(** ** S011: assignments with several targets *)

(** C10: visiting an assignment examines its first target only.  When the
    first target is a name, that name is checked and the later targets play no
    part; when it is anything else, nothing is added; and a [Name] node, visited
    on its own, adds nothing.  So [a = BadName = 1] and
    [self.x = BadName = 1] yield no violation, while [BadName = a = 1] yields
    S011 for [BadName]. *)
Theorem only_first_target_checked file_path lineno first rest value errors :
  visit file_path errors (ast.Node (ast.Assign lineno (first :: rest) value))
  = Ok (match first with
        | ast.Name id =>
            if snake_case_check id
            then errors ++ [mkError file_path lineno "S011" [id]]
            else errors
        | _ => errors
        end)
  /\ (forall id, visit file_path errors (ast.Node (ast.Name id)) = Ok errors)
  /\ file_as_ast_analyzer file_path a_BadName = Ok []
  /\ file_as_ast_analyzer file_path attr_BadName = Ok []
  /\ file_as_ast_analyzer file_path BadName_a
     = Ok [mkError file_path 1 "S011" ["BadName"]].
Proof.
  repeat split; try reflexivity.
  destruct first; reflexivity.
Qed.

(** ** The order of the report *)

Lemma str_lt_true (a b : string) : str_lt a b = true -> String_as_OT.lt a b.
Proof.
  unfold str_lt.
  destruct (String_as_OT.compare_spec a b) as [H|H|H]; [discriminate | auto | discriminate].
Qed.

Lemma str_lt_false (a b : string) : str_lt b a = false -> str_le a b.
Proof.
  unfold str_lt, str_le.
  destruct (String_as_OT.compare_spec b a) as [H|H|H]; [auto | discriminate | auto].
Qed.

Lemma str_le_trans (a b c : string) : str_le a b -> str_le b c -> str_le a c.
Proof.
  intros [->|Hab] [->|Hbc]; unfold str_le; auto.
  right. exact (RelationClasses.StrictOrder_Transitive _ _ _ Hab Hbc).
Qed.

Lemma tuple_lt_true (k1 k2 : nat * string) : tuple_lt k1 k2 = true -> key_le k1 k2.
Proof.
  unfold tuple_lt, key_le.
  destruct (Nat.eqb_spec (fst k1) (fst k2)) as [E|E]; intros H.
  - right; split; [exact E|]. right. now apply str_lt_true.
  - left. now apply Nat.ltb_lt.
Qed.

Lemma tuple_lt_false (k1 k2 : nat * string) : tuple_lt k2 k1 = false -> key_le k1 k2.
Proof.
  unfold tuple_lt, key_le.
  destruct (Nat.eqb_spec (fst k2) (fst k1)) as [E|E]; intros H.
  - right; split; [now symmetry|]. now apply str_lt_false.
  - left. apply Nat.ltb_ge in H. lia.
Qed.

Lemma key_le_trans (k1 k2 k3 : nat * string) :
  key_le k1 k2 -> key_le k2 k3 -> key_le k1 k3.
Proof.
  unfold key_le; intros [H12|[E12 S12]] [H23|[E23 S23]]; try (left; lia).
  right; split; [lia|]. eapply str_le_trans; eassumption.
Qed.

Lemma insert_sorted_Forall (P : Error -> Prop) (x : Error) (l : list Error) :
  P x -> Forall P l -> Forall P (insert_sorted tuple_lt sort_key x l).
Proof.
  intros Hx Hl; induction Hl as [|y l Hy Hl IH]; cbn [insert_sorted].
  - now constructor.
  - destruct (tuple_lt (sort_key y) (sort_key x)); repeat constructor; auto.
Qed.

Lemma insert_sorted_ordered (x : Error) (l : list Error) :
  StronglySorted key_ordered l ->
  StronglySorted key_ordered (insert_sorted tuple_lt sort_key x l).
Proof.
  induction 1 as [|y l Hl IH Hy]; cbn [insert_sorted].
  - repeat constructor.
  - destruct (tuple_lt (sort_key y) (sort_key x)) eqn:Hlt.
    + constructor; [exact IH|].
      apply insert_sorted_Forall; [|exact Hy].
      now apply tuple_lt_true.
    + apply tuple_lt_false in Hlt.
      constructor; [now constructor|].
      constructor; [exact Hlt|].
      eapply Forall_impl; [|exact Hy].
      intros z Hz. eapply key_le_trans; eassumption.
Qed.

Lemma sorted_ordered (l : list Error) :
  StronglySorted key_ordered (sorted tuple_lt sort_key l).
Proof.
  induction l as [|x l IH]; cbn [sorted fold_right].
  - constructor.
  - now apply insert_sorted_ordered.
Qed.

(** The order of the keys is the order by line number, then by the lexical
    order of the codes. *)
Lemma lexical_le_refl (a : string) : lexical_le a a.
Proof. induction a as [|c a IH]; cbn [lexical_le]; auto. Qed.

Lemma lt_lexical_le (a b : string) : String_as_OT.lt a b -> lexical_le a b.
Proof.
  unfold String_as_OT.lt.
  revert b; induction a as [|c a IH]; intros [|d b]; cbn [String_as_OT.compare lexical_le];
    try easy.
  unfold Ascii_as_OT.compare, Str.code.
  destruct (N.compare_spec (N_of_ascii c) (N_of_ascii d)) as [E|L|G].
  - intros H. right. split; [|now apply IH].
    rewrite <- (ascii_N_embedding c), <- (ascii_N_embedding d). now rewrite E.
  - intros _. now left.
  - discriminate.
Qed.

Lemma key_ordered_ordered (e1 e2 : Error) : key_ordered e1 e2 -> ordered e1 e2.
Proof.
  unfold key_ordered, key_le, sort_key, ordered; cbn [fst snd].
  intros [H|[E [->|H]]]; auto using lexical_le_refl, lt_lexical_le.
Qed.

Lemma StronglySorted_weaken {A : Type} (R R' : A -> A -> Prop) (l : list A) :
  (forall x y, R x y -> R' x y) -> StronglySorted R l -> StronglySorted R' l.
Proof.
  intros HR; induction 1 as [|x l Hl IH Hx]; constructor; [exact IH|].
  eapply Forall_impl; [|exact Hx]. intros y; apply HR.
Qed.

Lemma insert_sorted_perm (x : Error) (l : list Error) :
  Permutation (x :: l) (insert_sorted tuple_lt sort_key x l).
Proof.
  induction l as [|y l IH]; cbn [insert_sorted]; [reflexivity|].
  destruct (tuple_lt (sort_key y) (sort_key x)); [|reflexivity].
  rewrite perm_swap. now constructor.
Qed.

Lemma sorted_perm (l : list Error) : Permutation l (sorted tuple_lt sort_key l).
Proof.
  induction l as [|x l IH]; cbn [sorted fold_right]; [constructor|].
  rewrite <- insert_sorted_perm. now constructor.
Qed.

(** ** The loops return *)

Lemma total_result_bool (r : result bool) :
  (exists b, r = Ok b) -> r = Ok (result_bool r).
Proof. now intros [b ->]. Qed.

(** A loop whose body only appends to [errors] returns [errors] with what
    each turn appended. *)
Lemma for_each_appends {A : Type} (body : list Error -> A -> result (list Error))
    (found : A -> list Error) (items : list A) :
  (forall errors x, In x items -> body errors x = Ok (errors ++ found x)) ->
  forall errors,
    for_each body items errors = Ok (errors ++ flat_map found items).
Proof.
  induction items as [|x items IH]; intros Hbody errors; cbn [for_each flat_map].
  - now rewrite app_nil_r.
  - rewrite Hbody by now left. cbn [bind].
    rewrite IH by (intros; apply Hbody; now right).
    now rewrite <- app_assoc.
Qed.

Lemma check_line_eq file_path lines errors item :
  check_line file_path lines errors item
  = Ok (errors ++ line_errors file_path lines item).
Proof.
  destruct item as [line_num line].
  unfold check_line, line_errors, blank_lines_before; cbn [fst snd].
  set (l := Str.strip_chars LF line).
  rewrite (total_result_bool (semicolon_check l))
    by (rewrite semicolon_check_eq; eauto).
  rewrite (total_result_bool (preceding_spaces_check l))
    by apply preceding_spaces_check_total.
  rewrite (total_result_bool (todo_check l)) by apply todo_check_total.
  cbn [bind result_bool].
  rewrite !append_if_app, <- !app_assoc. reflexivity.
Qed.

(** The line scan returns: no check raises. *)
Lemma file_as_strings_analyzer_eq file_path lines :
  file_as_strings_analyzer file_path lines
  = Ok (flat_map (line_errors file_path lines) (enumerate lines)).
Proof.
  unfold file_as_strings_analyzer.
  rewrite (for_each_appends _ (line_errors file_path lines)); [reflexivity|].
  intros; apply check_line_eq.
Qed.

(** ** The file driver *)

(** C1: the list the file driver returns is sorted ascending by line number
    and, among the violations of one line, by the lexical order of their
    codes: every violation stands before all those that follow it in that
    order. *)
Theorem static_code_analyzer_sorted
    (read : string -> result string) (parse : string -> result ast.node)
    (file_path : string) (errors : list Error) :
  static_code_analyzer read parse file_path = Ok errors ->
  StronglySorted ordered errors.
Proof.
  unfold static_code_analyzer.
  destruct (read file_path) as [code|e]; cbn [bind]; [|discriminate].
  destruct (file_as_strings_analyzer file_path (Str.splitlines code)) as [found1|e];
    cbn [bind]; [|discriminate].
  destruct (parse code) as [tree|e]; cbn [bind]; [|discriminate].
  destruct (file_as_ast_analyzer file_path tree) as [found2|e];
    cbn [bind]; [|discriminate].
  intros [= <-].
  eapply StronglySorted_weaken; [exact key_ordered_ordered | apply sorted_ordered].
Qed.

(** The scans find S003 on line 2, then S008 on line 1, then, both on line
    3, S012 and S011; the report has the four in order. *)
Lemma static_code_analyzer_sorted_witness :
  StronglySorted ordered
    [mkError "t.py" 1 "S008" ["my_class"]; mkError "t.py" 2 "S003" [];
     mkError "t.py" 3 "S011" ["X"]; mkError "t.py" 3 "S012" []].
Proof.
  apply (static_code_analyzer_sorted
           (fun _ => Ok three_line_file) (fun _ => Ok three_line_tree) "t.py").
  vm_compute. reflexivity.
Defined.

(** C8: when the parser rejects the content of the file, the driver raises the
    parser's exception: it returns no list, neither the violations of the
    line scan nor an empty one. *)
Theorem parse_error_propagates
    (read : string -> result string) (parse : string -> result ast.node)
    (file_path code : string) (e : exception) :
  read file_path = Ok code ->
  parse code = Raise e ->
  static_code_analyzer read parse file_path = Raise e
  /\ forall errors, static_code_analyzer read parse file_path <> Ok errors.
Proof.
  intros Hread Hparse.
  assert (H : static_code_analyzer read parse file_path = Raise e).
  { unfold static_code_analyzer.
    rewrite Hread; cbn [bind].
    rewrite file_as_strings_analyzer_eq; cbn [bind].
    now rewrite Hparse. }
  split; [exact H|].
  intros errors; rewrite H; discriminate.
Qed.

(** [x = 1;] followed by [def (:] has a line violation but does not parse. *)
Lemma parse_error_propagates_witness :
  let read := fun _ : string => Ok ("x = 1;" ++ LF ++ "def (:")%string in
  let parse := fun _ : string => @Raise ast.node SyntaxError in
  static_code_analyzer read parse "t.py" = Raise SyntaxError
  /\ forall errors, static_code_analyzer read parse "t.py" <> Ok errors.
Proof.
  intros read parse.
  apply (parse_error_propagates read parse "t.py" ("x = 1;" ++ LF ++ "def (:")%string);
    reflexivity.
Defined.

(** ** S006: blank lines before a line *)

Lemma lines_eqb_eq (l1 l2 : list string) : lines_eqb l1 l2 = true <-> l1 = l2.
Proof.
  unfold lines_eqb. destruct (list_eq_dec string_dec l1 l2); split; auto; discriminate.
Qed.

Lemma window_blank3 (lines : list string) (k : nat) :
  firstn 3 (skipn k lines) = repeat "" 3 <-> blank3 lines k.
Proof.
  unfold blank3; revert lines; induction k as [|k IH]; intros lines.
  - destruct lines as [|a [|b [|c r]]]; cbn; split;
      try discriminate; try (intros (H1 & H2 & H3); discriminate).
    + now intros [= -> -> ->].
    + now intros (-> & -> & ->).
  - destruct lines as [|a lines].
    + cbn; split; [discriminate | intros (H & _); discriminate].
    + apply IH.
Qed.

Lemma blank_lines_before_iff (lines : list string) (i : nat) :
  blank_lines_before lines i = true <-> 3 <= i /\ blank3 lines (i - 3).
Proof.
  unfold blank_lines_before, list_slice.
  rewrite andb_true_iff, Nat.ltb_lt, lines_eqb_eq.
  split; intros [Hi H]; (split; [lia|]).
  - apply window_blank3. now replace (i - (i - 3)) with 3 in H by lia.
  - replace (i - (i - 3)) with 3 by lia. now apply window_blank3.
Qed.

Lemma has_blank_run_false (lines : list string) :
  has_blank_run lines = false -> forall k, ~ blank3 lines k.
Proof.
  induction lines as [|a lines IH]; intros H k Hk.
  - destruct Hk as (Hk & _). destruct k; discriminate.
  - cbn [has_blank_run] in H. apply orb_false_iff in H as [Hw Hr].
    destruct k as [|k].
    + apply (window_blank3 (a :: lines) 0) in Hk. cbn [skipn] in Hk.
      apply lines_eqb_eq in Hk. congruence.
    + exact (IH Hr k Hk).
Qed.

Lemma ends_blank_false (lines : list string) :
  ends_blank lines = false ->
  lines = [] \/ nth (List.length lines - 1) lines "-" <> "".
Proof.
  unfold ends_blank; intros H.
  destruct (rev lines) as [|s r] eqn:Hrev.
  - left. apply (f_equal (@rev string)) in Hrev. now rewrite rev_involutive in Hrev.
  - right. apply (f_equal (@rev string)) in Hrev. rewrite rev_involutive in Hrev.
    subst lines. cbn [rev]. rewrite length_app, Nat.add_sub; cbn [List.length].
    rewrite app_nth2 by lia. rewrite Nat.sub_diag. cbn [nth].
    now apply String.eqb_neq.
Qed.

(** In a file made of [pre], three empty lines, a non-empty line and [post],
    where [pre] and [post] hold no three consecutive empty lines and [pre]
    does not end with one, the three empty lines are the only such run. *)
Lemma only_blank_run (pre post : list string) (line : string) (k : nat) :
  has_blank_run pre = false ->
  ends_blank pre = false ->
  line <> "" ->
  has_blank_run post = false ->
  blank3 (pre ++ [""; ""; ""] ++ line :: post) k <-> k = List.length pre.
Proof.
  intros Hpre Hend Hline Hpost.
  set (p := List.length pre).
  assert (Hin : forall j, j < p ->
            nth j (pre ++ [""; ""; ""] ++ line :: post) "-" = nth j pre "-")
    by (intros; now apply app_nth1).
  assert (Hout : forall j,
            nth (p + j) (pre ++ [""; ""; ""] ++ line :: post) "-"
            = nth j ([""; ""; ""] ++ line :: post) "-").
  { intros j. rewrite app_nth2 by (fold p; lia). f_equal. fold p. lia. }
  split.
  - intros (H0 & H1 & H2).
    destruct (Nat.lt_ge_cases (k + 2) p) as [Hlt|Hge].
    { exfalso. apply (has_blank_run_false pre Hpre k).
      unfold blank3. rewrite <- !Hin by lia. auto. }
    destruct (Nat.lt_ge_cases k p) as [Hk|Hk].
    { exfalso. destruct (ends_blank_false pre Hend) as [E|E].
      - subst pre. cbn in p. lia.
      - fold p in E. apply E. rewrite <- Hin by lia.
        assert (C : p - 1 = k \/ p - 1 = S k \/ p - 1 = S (S k)) by lia.
        destruct C as [->|[->| ->]]; assumption. }
    destruct (Nat.eq_dec k p) as [E|E]; [exact E|exfalso].
    destruct (Nat.lt_ge_cases (p + 3) k) as [Hfar|Hnear].
    + apply (has_blank_run_false post Hpost (k - p - 4)).
      unfold blank3.
      replace k with (p + (4 + (k - p - 4))) in H0 by lia.
      replace (S k) with (p + (4 + S (k - p - 4))) in H1 by lia.
      replace (S (S k)) with (p + (4 + S (S (k - p - 4)))) in H2 by lia.
      rewrite Hout in H0, H1, H2. auto.
    + assert (Hl : nth (p + 3) (pre ++ [""; ""; ""] ++ line :: post) "-" = line)
        by now rewrite Hout.
      apply Hline. rewrite <- Hl.
      assert (C : p + 3 = k \/ p + 3 = S k \/ p + 3 = S (S k)) by lia.
      destruct C as [->|[->| ->]]; assumption.
  - intros ->. unfold blank3. fold p.
    replace p with (p + 0) at 1 by lia.
    replace (S p) with (p + 1) by lia.
    replace (S (p + 1)) with (p + 2) by lia.
    rewrite !Hout. auto.
Qed.

Lemma filter_flat_map {A B : Type} (f : B -> bool) (g : A -> list B) (l : list A) :
  filter f (flat_map g l) = flat_map (fun x => filter f (g x)) l.
Proof.
  induction l as [|x l IH]; cbn [flat_map]; [reflexivity|].
  now rewrite filter_app, IH.
Qed.

Lemma flat_map_enumerate {A B : Type} (h : nat -> list B) (l : list A) (a : nat) :
  flat_map (fun item => h (fst item)) (combine (seq a (List.length l)) l)
  = flat_map h (seq a (List.length l)).
Proof.
  revert a; induction l as [|x l IH]; intros a; cbn; [reflexivity|].
  now rewrite IH.
Qed.

Lemma flat_map_one {B : Type} (f : nat -> B) (q a n : nat) :
  flat_map (fun i => if i =? q then [f i] else []) (seq a n)
  = if (a <=? q) && (q <? a + n) then [f q] else [].
Proof.
  revert a; induction n as [|n IH]; intros a; cbn [seq flat_map].
  - destruct (Nat.leb_spec a q), (Nat.ltb_spec q (a + 0)); cbn; auto; lia.
  - rewrite IH.
    destruct (Nat.eqb_spec a q) as [->|Hne].
    + destruct (Nat.leb_spec (S q) q); [lia|].
      rewrite Nat.leb_refl. destruct (Nat.ltb_spec q (q + S n)); [|lia].
      reflexivity.
    + destruct (Nat.leb_spec (S a) q), (Nat.leb_spec a q),
        (Nat.ltb_spec q (S a + n)), (Nat.ltb_spec q (a + S n));
        cbn; auto; lia.
Qed.

(** Of what one line appends, only the S006 violation has code S006. *)
Lemma line_errors_S006 file_path lines item :
  filter (has_code "S006") (line_errors file_path lines item)
  = if blank_lines_before lines (fst item)
    then [mkError file_path (fst item + 1) "S006" []] else [].
Proof.
  unfold line_errors. rewrite !filter_app.
  repeat match goal with
         | |- context [filter _ (if ?b then _ else _)] => destruct b
         end; reflexivity.
Qed.

(** C6: in a file made of some lines, then three empty lines, then a non-empty
    line, then more lines, where the three empty lines are the only run of
    three consecutive empty lines (the lines before hold none and do not end
    with an empty line, the lines after hold none), the line scan emits exactly
    one S006 violation, and its line number is that of the non-empty line. *)
Theorem three_blank_lines_one_violation
    (file_path : string) (pre post : list string) (line : string) :
  has_blank_run pre = false ->
  ends_blank pre = false ->
  line <> "" ->
  has_blank_run post = false ->
  exists errors,
    file_as_strings_analyzer file_path (pre ++ [""; ""; ""] ++ line :: post)
    = Ok errors
    /\ filter (has_code "S006") errors
       = [mkError file_path (List.length pre + 4) "S006" []].
Proof.
  intros Hpre Hend Hline Hpost.
  set (lines := pre ++ [""; ""; ""] ++ line :: post).
  eexists; split; [apply file_as_strings_analyzer_eq|].
  rewrite filter_flat_map.
  rewrite (flat_map_ext _ _ (line_errors_S006 file_path lines)).
  unfold enumerate.
  rewrite (flat_map_enumerate
             (fun i => if blank_lines_before lines i
                       then [mkError file_path (i + 1) "S006" []] else [])).
  rewrite (flat_map_ext _
             (fun i => if i =? List.length pre + 3
                       then [mkError file_path (i + 1) "S006" []] else [])).
  - rewrite flat_map_one.
    assert (Hlen : List.length lines = List.length pre + 4 + List.length post).
    { unfold lines. rewrite !length_app. cbn [List.length]. lia. }
    rewrite Hlen. cbn [Nat.leb].
    destruct (Nat.ltb_spec (List.length pre + 3) (0 + (List.length pre + 4 + List.length post)));
      [|lia].
    cbn [andb]. do 2 f_equal. lia.
  - intros i.
    destruct (Nat.eqb_spec i (List.length pre + 3)) as [->|Hne].
    + assert (H : blank_lines_before lines (List.length pre + 3) = true).
      { apply blank_lines_before_iff. split; [lia|].
        apply only_blank_run; auto. lia. }
      now rewrite H.
    + destruct (blank_lines_before lines i) eqn:H; [|reflexivity].
      apply blank_lines_before_iff in H as [Hi H].
      apply only_blank_run in H; auto. lia.
Qed.

Lemma three_blank_lines_one_violation_witness :
  exists errors,
    file_as_strings_analyzer "t.py"
      (["import os"; ""; "x = 1"] ++ [""; ""; ""] ++ "y = 2" :: [""; "z = 3"])
    = Ok errors
    /\ filter (has_code "S006") errors = [mkError "t.py" (3 + 4) "S006" []].
Proof.
  apply (three_blank_lines_one_violation "t.py" ["import os"; ""; "x = 1"]
           [""; "z = 3"] "y = 2"); try reflexivity.
  discriminate.
Defined.

(** ** [ast.walk] visits every object of the tree *)

Lemma sizes_Node (l : list ast.node) :
  list_sum (map ast.size_AST (map ast.Node l)) = list_sum (map ast.size l).
Proof. now rewrite map_map. Qed.

Lemma sizes_Arg (l : list ast.arg) :
  list_sum (map ast.size_AST (map ast.Arg l)) = list_sum (map ast.size_arg l).
Proof. now rewrite map_map. Qed.

Lemma list_sum_cons (a : nat) (l : list nat) : list_sum (a :: l) = a + list_sum l.
Proof. reflexivity. Qed.

Lemma list_sum_nil : list_sum [] = 0.
Proof. reflexivity. Qed.

Lemma size_children (x : ast.AST) :
  ast.size_AST x = S (todo_size (ast.iter_child_nodes x)).
Proof.
  unfold todo_size.
  destruct x as [n|a|a]; [destruct n | destruct a | destruct a];
    cbn [ast.size_AST ast.size ast.size_arguments ast.size_arg ast.iter_child_nodes];
    repeat match goal with o : option _ |- _ => destruct o end;
    repeat (rewrite ?map_app, ?list_sum_app, ?sizes_Node, ?sizes_Arg,
              ?list_sum_cons, ?list_sum_nil;
            cbn [ast.opt map app ast.size_AST]);
    lia.
Qed.

(** With one turn per object the queue runs empty: the walk yields as many
    objects as the queue's trees hold, and more fuel adds nothing. *)
Lemma walk_todo_enough (fuel : nat) (todo : list ast.AST) :
  todo_size todo <= fuel ->
  List.length (ast.walk_todo fuel todo) = todo_size todo
  /\ ast.walk_todo fuel todo = ast.walk_todo (todo_size todo) todo.
Proof.
  revert todo; induction fuel as [|fuel IH]; intros todo Hfuel;
    destruct todo as [|x rest]; try (split; reflexivity).
  - pose proof (size_children x) as Hx.
    unfold todo_size in Hfuel. rewrite map_cons, list_sum_cons in Hfuel. lia.
  - assert (Hsz : todo_size (x :: rest)
                  = S (todo_size (rest ++ ast.iter_child_nodes x))).
    { pose proof (size_children x) as Hx. unfold todo_size in *.
      rewrite map_cons, list_sum_cons, map_app, list_sum_app. lia. }
    rewrite Hsz in *.
    cbn [ast.walk_todo List.length].
    destruct (IH (rest ++ ast.iter_child_nodes x)) as [Hlen Heq]; [lia|].
    split; [now rewrite Hlen | now rewrite Heq].
Qed.

Lemma walk_length (tree : ast.node) :
  List.length (ast.walk tree) = ast.size tree.
Proof.
  unfold ast.walk.
  destruct (walk_todo_enough (ast.size tree) [ast.Node tree]) as [H _].
  - unfold todo_size; cbn. lia.
  - rewrite H. unfold todo_size; cbn. lia.
Qed.

(** ** Further properties of the line scan *)

(** The line scan never raises. *)
Theorem line_scan_returns (file_path : string) (lines : list string) :
  exists errors, file_as_strings_analyzer file_path lines = Ok errors.
Proof. eexists; apply file_as_strings_analyzer_eq. Qed.

(** What one turn of the loop appends, code by code. *)
Lemma line_errors_by_code file_path lines (line_num : nat) (line : string) :
  let found := line_errors file_path lines (line_num, line) in
  let stripped := Str.strip_chars LF line in
  let one := fun (b : bool) code =>
               if b then [mkError file_path (line_num + 1) code []] else [] in
  filter (has_code "S001") found
  = one (79 <? Str.len (Str.rstrip_chars LF stripped)) "S001"
  /\ filter (has_code "S002") found = one (indentation_check stripped) "S002"
  /\ (exists b, semicolon_check stripped = Ok b
                 /\ filter (has_code "S003") found = one b "S003")
  /\ (exists b, preceding_spaces_check stripped = Ok b
                 /\ filter (has_code "S004") found = one b "S004")
  /\ (exists b, todo_check stripped = Ok b
                 /\ filter (has_code "S005") found = one b "S005")
  /\ filter (has_code "S006") found = one (blank_lines_before lines line_num) "S006"
  /\ filter (has_code "S007") found
     = one (spaces_after_construction_name stripped) "S007".
Proof.
  cbv zeta. unfold line_errors; cbn [fst snd].
  set (stripped := Str.strip_chars LF line).
  rewrite (total_result_bool (semicolon_check stripped))
    by (rewrite semicolon_check_eq; eauto).
  rewrite (total_result_bool (preceding_spaces_check stripped))
    by apply preceding_spaces_check_total.
  rewrite (total_result_bool (todo_check stripped)) by apply todo_check_total.
  cbn [result_bool].
  rewrite !filter_app.
  destruct (79 <? Str.len (Str.rstrip_chars LF stripped)),
    (indentation_check stripped),
    (result_bool (semicolon_check stripped)),
    (result_bool (preceding_spaces_check stripped)),
    (result_bool (todo_check stripped)),
    (blank_lines_before lines line_num),
    (spaces_after_construction_name stripped);
    repeat split; try reflexivity; eexists; split; reflexivity.
Qed.

(** What one line appends with code S001. *)
Lemma line_errors_S001 file_path lines item :
  filter (has_code "S001") (line_errors file_path lines item)
  = if 79 <? Str.len (Str.rstrip_chars LF (Str.strip_chars LF (snd item)))
    then [mkError file_path (fst item + 1) "S001" []] else [].
Proof.
  unfold line_errors. rewrite !filter_app.
  repeat match goal with
         | |- context [filter _ (if ?b then _ else _)] => destruct b
         end; reflexivity.
Qed.

Lemma mem_LF (c : ascii) : Str.mem c LF = Ascii.eqb "010" c.
Proof.
  unfold Str.mem, LF. cbn [list_ascii_of_string existsb].
  rewrite orb_false_r. apply Ascii.eqb_sym.
Qed.

Lemma rstrip_chars_no_LF (s : string) :
  Str.contains s LF = false -> Str.rstrip_chars LF s = s.
Proof.
  induction s as [|c s IH]; [reflexivity|].
  unfold LF at 1. rewrite contains_char_cons.
  intros H. apply orb_false_iff in H as [Hc Hs].
  cbn [Str.rstrip_chars]. rewrite (IH Hs), mem_LF, Hc.
  now destruct s.
Qed.

Lemma lstrip_chars_no_LF (s : string) :
  Str.contains s LF = false -> Str.lstrip_chars LF s = s.
Proof.
  destruct s as [|c s]; [reflexivity|].
  unfold LF at 1. rewrite contains_char_cons.
  intros H. apply orb_false_iff in H as [Hc _].
  cbn [Str.lstrip_chars]. now rewrite mem_LF, Hc.
Qed.

(** Each of the seven line checks decides its own code and no other: the
    line scan returns, and its violations with a given code are that code's
    violation at every line, stripped of line feeds, at which the check of
    that code holds, whatever the other checks find there. *)
Theorem line_checks_independent (file_path : string) (lines : list string) :
  let stripped := Str.strip_chars LF in
  exists errors,
    file_as_strings_analyzer file_path lines = Ok errors
    /\ filter (has_code "S001") errors
       = at_lines file_path lines
           (fun _ line => 79 <? Str.len (Str.rstrip_chars LF (stripped line))) "S001"
    /\ filter (has_code "S002") errors
       = at_lines file_path lines (fun _ line => indentation_check (stripped line)) "S002"
    /\ filter (has_code "S003") errors
       = at_lines file_path lines
           (fun _ line => result_bool (semicolon_check (stripped line))) "S003"
    /\ filter (has_code "S004") errors
       = at_lines file_path lines
           (fun _ line => result_bool (preceding_spaces_check (stripped line))) "S004"
    /\ filter (has_code "S005") errors
       = at_lines file_path lines
           (fun _ line => result_bool (todo_check (stripped line))) "S005"
    /\ filter (has_code "S006") errors
       = at_lines file_path lines
           (fun line_num _ =>
              (2 <? line_num)
              && lines_eqb (list_slice lines (line_num - 3) line_num) [""; ""; ""])
           "S006"
    /\ filter (has_code "S007") errors
       = at_lines file_path lines
           (fun _ line => spaces_after_construction_name (stripped line)) "S007".
Proof.
  cbv zeta. eexists. split; [apply file_as_strings_analyzer_eq|].
  unfold at_lines. rewrite !filter_flat_map.
  repeat split; apply flat_map_ext; intros [line_num line]; cbn [fst snd];
    pose proof (line_errors_by_code file_path lines line_num line) as H;
    cbv zeta in H;
    destruct H as (H1 & H2 & (b3 & E3 & H3) & (b4 & E4 & H4) & (b5 & E5 & H5) & H6 & H7);
    rewrite ?E3, ?E4, ?E5; cbn [result_bool]; assumption.
Qed.

Lemma flat_map_ext_items {A B : Type} (f g : A -> list B) (l : list A) :
  (forall x, In x l -> f x = g x) -> flat_map f l = flat_map g l.
Proof.
  induction l as [|x l IH]; intros H; cbn [flat_map]; [reflexivity|].
  rewrite (H x) by now left. rewrite IH; [reflexivity|].
  intros y Hy. apply H. now right.
Qed.

(** In a file whose lines hold no line feed, as [splitlines] returns them,
    S001 is reported for exactly the lines longer than 79 characters: a line
    of 79 characters is not reported, a line of 80 is. *)
Theorem line_too_long_boundary (file_path : string) (lines : list string) :
  Forall (fun line => Str.contains line LF = false) lines ->
  exists errors,
    file_as_strings_analyzer file_path lines = Ok errors
    /\ filter (has_code "S001") errors
       = at_lines file_path lines (fun _ line => 79 <? String.length line) "S001".
Proof.
  intros Hlines. eexists. split; [apply file_as_strings_analyzer_eq|].
  unfold at_lines. rewrite filter_flat_map.
  apply flat_map_ext_items. intros [line_num line] Hin.
  assert (Hnl : Str.contains line LF = false).
  { unfold enumerate in Hin. apply in_combine_r in Hin.
    rewrite Forall_forall in Hlines. now apply Hlines. }
  rewrite line_errors_S001; cbn [fst snd]. unfold Str.strip_chars, Str.len.
  now rewrite (rstrip_chars_no_LF line Hnl), (lstrip_chars_no_LF line Hnl),
    (rstrip_chars_no_LF line Hnl).
Qed.

Lemma line_too_long_boundary_witness :
  let line79 := "0123456789012345678901234567890123456789012345678901234567890123456789012345678" in
  let line80 := "01234567890123456789012345678901234567890123456789012345678901234567890123456789" in
  exists errors,
    file_as_strings_analyzer "t.py" [line79; line80] = Ok errors
    /\ filter (has_code "S001") errors = [mkError "t.py" 2 "S001" []].
Proof.
  intros line79 line80.
  apply (line_too_long_boundary "t.py" [line79; line80]).
  repeat constructor.
Defined.

(** ** Subject names *)

Lemma Forall_app_one {A : Type} (P : A -> Prop) (b : bool) (x : A) (l : list A) :
  Forall P l -> P x -> Forall P (l ++ (if b then [x] else [])).
Proof.
  intros Hl Hx. apply Forall_app; split; [exact Hl|].
  destruct b; repeat constructor; exact Hx.
Qed.

Lemma line_errors_subject file_path lines item :
  Forall (fun e => subject_matches_code e = true) (line_errors file_path lines item).
Proof.
  unfold line_errors.
  repeat (apply Forall_app; split);
    match goal with |- Forall _ (if ?b then _ else _) => destruct b end;
    repeat constructor.
Qed.

Lemma visit_subject file_path errors node errors' :
  visit file_path errors node = Ok errors' ->
  Forall (fun e => subject_matches_code e = true) errors ->
  Forall (fun e => subject_matches_code e = true) errors'.
Proof.
  intros Hvisit Herrors.
  destruct node as [n|a|a]; try (injection Hvisit as <-; exact Herrors).
  destruct n; try (injection Hvisit as <-; exact Herrors).
  - (* ClassDef *)
    unfold visit in Hvisit; cbn [visit_ClassDef visit_FunctionDef visit_Assign] in Hvisit.
    injection Hvisit as <-. rewrite append_if_app.
    apply Forall_app_one; [exact Herrors | reflexivity].
  - (* FunctionDef *)
    rewrite visit_FunctionDef_eq in Hvisit. injection Hvisit as <-.
    unfold function_def_errors.
    repeat (apply Forall_app; split); auto.
    + destruct (snake_case_check name); repeat constructor.
    + destruct (existsb _ _); repeat constructor.
    + apply Forall_forall. intros e He. apply in_map_iff in He as (d & <- & _).
      reflexivity.
  - (* Assign *)
    unfold visit in Hvisit; cbn [visit_ClassDef visit_FunctionDef visit_Assign] in Hvisit.
    destruct targets as [|target rest]; [discriminate|]. cbn [item0 bind] in Hvisit.
    destruct target; injection Hvisit as <-; try exact Herrors.
    rewrite append_if_app. apply Forall_app_one; [exact Herrors | reflexivity].
Qed.

Lemma for_each_invariant {A S : Type} (P : S -> Prop)
    (body : S -> A -> result S) (items : list A) :
  (forall s x s', body s x = Ok s' -> P s -> P s') ->
  forall s s', for_each body items s = Ok s' -> P s -> P s'.
Proof.
  intros Hbody; induction items as [|x items IH]; intros s s'; cbn [for_each].
  - now intros [= <-].
  - destruct (body s x) as [s1|e] eqn:Hs1; cbn [bind]; [|discriminate].
    intros Hrest Hs. eapply IH; [exact Hrest|]. eapply Hbody; eassumption.
Qed.

Lemma sorted_Forall (P : Error -> Prop) (l : list Error) :
  Forall P l -> Forall P (sorted tuple_lt sort_key l).
Proof.
  induction 1 as [|x l Hx Hl IH]; cbn [sorted fold_right]; [constructor|].
  now apply insert_sorted_Forall.
Qed.

(** What the driver returns, read off its definition. *)
Lemma static_code_analyzer_Ok read parse file_path errors :
  static_code_analyzer read parse file_path = Ok errors ->
  exists code tree found,
    read file_path = Ok code /\ parse code = Ok tree
    /\ file_as_ast_analyzer file_path tree = Ok found
    /\ errors = sorted tuple_lt sort_key
                  (flat_map (line_errors file_path (Str.splitlines code))
                            (enumerate (Str.splitlines code)) ++ found).
Proof.
  unfold static_code_analyzer.
  destruct (read file_path) as [code|e] eqn:Hread; cbn [bind]; [|discriminate].
  rewrite file_as_strings_analyzer_eq; cbn [bind].
  destruct (parse code) as [tree|e] eqn:Hparse; cbn [bind]; [|discriminate].
  destruct (file_as_ast_analyzer file_path tree) as [found|e] eqn:Hfound;
    cbn [bind]; [|discriminate].
  intros [= <-]. exists code, tree, found. auto.
Qed.

(** Every violation of a report carries a subject name exactly when its
    code is one of S008-S011. *)
Theorem report_subjects read parse file_path errors :
  static_code_analyzer read parse file_path = Ok errors ->
  Forall (fun e => subject_matches_code e = true) errors.
Proof.
  intros H.
  apply static_code_analyzer_Ok in H as (code & tree & found & _ & _ & Hfound & ->).
  apply sorted_Forall, Forall_app; split.
  - apply Forall_flat_map, Forall_forall. intros item _. apply line_errors_subject.
  - unfold file_as_ast_analyzer in Hfound.
    eapply (for_each_invariant (Forall (fun e => subject_matches_code e = true)));
      [|exact Hfound|constructor].
    intros s x s' Hx Hs. eapply visit_subject; eassumption.
Qed.

Lemma report_subjects_witness :
  Forall (fun e => subject_matches_code e = true)
    [mkError "t.py" 1 "S008" ["my_class"]; mkError "t.py" 2 "S003" []].
Proof.
  apply (report_subjects (fun _ => Ok two_line_file) (fun _ => Ok two_line_tree) "t.py").
  vm_compute. reflexivity.
Defined.

(** The report holds the violations of the two scans, each as often as it
    was found: nothing is dropped and nothing is merged. *)
Theorem report_is_permutation read parse file_path errors :
  static_code_analyzer read parse file_path = Ok errors ->
  exists code tree found1 found2,
    read file_path = Ok code /\ parse code = Ok tree
    /\ file_as_strings_analyzer file_path (Str.splitlines code) = Ok found1
    /\ file_as_ast_analyzer file_path tree = Ok found2
    /\ Permutation (found1 ++ found2) errors.
Proof.
  intros H.
  apply static_code_analyzer_Ok in H as (code & tree & found & Hr & Hp & Hfound & ->).
  exists code, tree,
    (flat_map (line_errors file_path (Str.splitlines code))
       (enumerate (Str.splitlines code))), found.
  repeat split; try assumption.
  - apply file_as_strings_analyzer_eq.
  - apply sorted_perm.
Qed.

Lemma report_is_permutation_witness :
  exists code tree found1 found2,
    Ok two_line_file = Ok code /\ Ok two_line_tree = Ok tree
    /\ file_as_strings_analyzer "t.py" (Str.splitlines code) = Ok found1
    /\ file_as_ast_analyzer "t.py" tree = Ok found2
    /\ Permutation (found1 ++ found2)
         [mkError "t.py" 1 "S008" ["my_class"]; mkError "t.py" 2 "S003" []].
Proof.
  apply (report_is_permutation (fun _ => Ok two_line_file)
           (fun _ => Ok two_line_tree) "t.py").
  vm_compute. reflexivity.
Defined.

(** ** The sort is stable *)

Lemma key_eqb_eq (k1 k2 : nat * string) : key_eqb k1 k2 = true <-> k1 = k2.
Proof.
  unfold key_eqb. destruct k1 as [n1 s1], k2 as [n2 s2]; cbn [fst snd].
  rewrite andb_true_iff, Nat.eqb_eq, String.eqb_eq.
  split; [intros [-> ->]; reflexivity | intros [= -> ->]; auto].
Qed.

Lemma tuple_lt_irrefl (k : nat * string) : tuple_lt k k = false.
Proof.
  unfold tuple_lt. rewrite Nat.eqb_refl. unfold str_lt.
  destruct (String_as_OT.compare_spec (snd k) (snd k)) as [H|H|H]; try reflexivity.
  exfalso. exact (RelationClasses.StrictOrder_Irreflexive _ H).
Qed.

Lemma insert_sorted_filter_key (k : nat * string) (x : Error) (l : list Error) :
  filter (fun e => key_eqb (sort_key e) k) (insert_sorted tuple_lt sort_key x l)
  = filter (fun e => key_eqb (sort_key e) k) (x :: l).
Proof.
  induction l as [|y l IH]; cbn [insert_sorted]; [reflexivity|].
  destruct (tuple_lt (sort_key y) (sort_key x)) eqn:Hlt; [|reflexivity].
  cbn [filter] in *. rewrite IH.
  destruct (key_eqb (sort_key y) k) eqn:Hy, (key_eqb (sort_key x) k) eqn:Hx;
    try reflexivity.
  apply key_eqb_eq in Hy, Hx. rewrite Hy, Hx, tuple_lt_irrefl in Hlt. discriminate.
Qed.

(** Violations with the same line number and code leave [sorted] in the
    order in which they entered it. *)
Theorem sorted_stable (k : nat * string) (l : list Error) :
  filter (fun e => key_eqb (sort_key e) k) (sorted tuple_lt sort_key l)
  = filter (fun e => key_eqb (sort_key e) k) l.
Proof.
  induction l as [|x l IH]; cbn [sorted fold_right]; [reflexivity|].
  fold (sorted tuple_lt sort_key l).
  rewrite insert_sorted_filter_key. cbn [filter]. now rewrite IH.
Qed.

(** ** The examples of the specification *)

(** Four spaces of indentation are accepted, three are not. *)
Theorem indentation_examples :
  indentation_check "    x = 1" = false /\ indentation_check "   x = 1" = true.
Proof. split; reflexivity. Qed.

(** [class my_class:] yields one S008 violation, with subject [my_class]. *)
Theorem class_name_example (file_path : string) :
  file_as_ast_analyzer file_path class_my_class
  = Ok [mkError file_path 1 "S008" ["my_class"]].
Proof. reflexivity. Qed.

(** [x = 1 #todo], with one space before the [#], yields S004 and S005. *)
Theorem comment_todo_example (file_path : string) :
  file_as_strings_analyzer file_path ["x = 1 #todo"]
  = Ok [mkError file_path 1 "S004" []; mkError file_path 1 "S005" []].
Proof. reflexivity. Qed.

(** [ast.walk] yields every object of the tree once: as many objects as the
    tree holds. *)
Theorem walk_visits_all (tree : ast.node) :
  List.length (ast.walk tree) = ast.size tree
  /\ forall fuel, ast.size tree <= fuel ->
       ast.walk_todo fuel [ast.Node tree] = ast.walk tree.
Proof.
  split; [apply walk_length|].
  intros fuel Hfuel. unfold ast.walk.
  destruct (walk_todo_enough fuel [ast.Node tree]) as [_ H].
  - unfold todo_size; cbn. lia.
  - rewrite H. unfold todo_size; cbn. now rewrite Nat.add_0_r.
Qed.

Lemma walk_visits_all_witness :
  List.length (ast.walk two_line_tree) = ast.size two_line_tree
  /\ forall fuel, ast.size two_line_tree <= fuel ->
       ast.walk_todo fuel [ast.Node two_line_tree] = ast.walk two_line_tree.
Proof. apply (walk_visits_all two_line_tree). Defined.

(** * More of the code *)

(** ** Strings *)

Lemma append_nil_r (s : string) : (s ++ "")%string = s.
Proof. induction s as [|c s IH]; cbn; [reflexivity | now rewrite IH]. Qed.

Lemma append_assoc (a b c : string) : ((a ++ b) ++ c)%string = (a ++ (b ++ c))%string.
Proof. induction a as [|x a IH]; cbn; [reflexivity | now rewrite IH]. Qed.

Lemma length_append (a b : string) :
  String.length (a ++ b) = String.length a + String.length b.
Proof. induction a as [|x a IH]; cbn; [reflexivity | now rewrite IH]. Qed.

Lemma append_eq_nil (a b : string) : (a ++ b)%string = "" -> a = "" /\ b = "".
Proof. destruct a; cbn; [auto | discriminate]. Qed.

(** ** The language of a pattern *)

Lemma lang_Void_inv (s : string) : ~ lang re.Void s.
Proof. intros H; inversion H. Qed.

Lemma lang_Eps_inv (s : string) : lang re.Eps s -> s = "".
Proof. intros H; now inversion H. Qed.

Lemma lang_Lit_inv (c : ascii) (s : string) : lang (re.Lit c) s -> s = String c "".
Proof. intros H; now inversion H. Qed.

Lemma lang_Class_inv (p : ascii -> bool) (s : string) :
  lang (re.Class p) s -> exists c, s = String c "" /\ p c = true.
Proof. intros H; inversion H; subst; eauto. Qed.

Lemma lang_Seq_inv (r1 r2 : re.pattern) (s : string) :
  lang (re.Seq r1 r2) s ->
  exists s1 s2, s = (s1 ++ s2)%string /\ lang r1 s1 /\ lang r2 s2.
Proof. intros H; inversion H; subst; eauto. Qed.

Lemma lang_Alt_inv (r1 r2 : re.pattern) (s : string) :
  lang (re.Alt r1 r2) s -> lang r1 s \/ lang r2 s.
Proof. intros H; inversion H; subst; auto. Qed.

Lemma nullable_lang (r : re.pattern) : re.nullable r = true <-> lang r "".
Proof.
  induction r as [| | c | p | r1 IH1 r2 IH2 | r1 IH1 r2 IH2 | r IH];
    cbn [re.nullable]; split; intros H;
    try discriminate; try (now constructor); try (now inversion H).
  - apply andb_true_iff in H as [H1 H2].
    change "" with ("" ++ "")%string. constructor; [now apply IH1 | now apply IH2].
  - apply lang_Seq_inv in H as (s1 & s2 & E & H1 & H2). symmetry in E.
    apply append_eq_nil in E as [-> ->].
    apply andb_true_iff; split; [now apply IH1 | now apply IH2].
  - apply orb_true_iff in H as [H|H];
      [apply lang_Alt_l; now apply IH1 | apply lang_Alt_r; now apply IH2].
  - apply orb_true_iff.
    apply lang_Alt_inv in H as [H|H]; [left; now apply IH1 | right; now apply IH2].
Qed.

Lemma lang_Star_cons_gen (r' : re.pattern) (w : string) :
  lang r' w ->
  forall rs a t, r' = re.Star rs -> w = String a t ->
  exists s1 s2, t = (s1 ++ s2)%string /\ lang rs (String a s1) /\ lang (re.Star rs) s2.
Proof.
  induction 1 as [| | | | | | r0 | r0 s1 s2 H1 _ H2 IH2]; intros rs a t Er Ew;
    try discriminate.
  injection Er as ->.
  destruct s1 as [|c1 s1]; cbn in Ew.
  - exact (IH2 rs a t eq_refl Ew).
  - injection Ew as -> <-. exists s1, s2. auto.
Qed.

(** A non-empty string of [r*] starts with a non-empty string of [r]. *)
Lemma lang_Star_cons (r : re.pattern) (c : ascii) (s : string) :
  lang (re.Star r) (String c s) ->
  exists s1 s2, s = (s1 ++ s2)%string /\ lang r (String c s1) /\ lang (re.Star r) s2.
Proof. intros H. exact (lang_Star_cons_gen _ _ H r c s eq_refl eq_refl). Qed.

Lemma deriv_lang (r : re.pattern) (c : ascii) (s : string) :
  lang (re.deriv c r) s <-> lang r (String c s).
Proof.
  revert s; induction r as [| | c' | p | r1 IH1 r2 IH2 | r1 IH1 r2 IH2 | r IH];
    intros s; cbn [re.deriv].
  - split; intros H; now apply lang_Void_inv in H.
  - split; intros H; [now apply lang_Void_inv in H | apply lang_Eps_inv in H; discriminate].
  - destruct (Ascii.eqb_spec c c') as [->|Hne]; split; intros H.
    + apply lang_Eps_inv in H as ->. constructor.
    + apply lang_Lit_inv in H. injection H as ->. constructor.
    + now apply lang_Void_inv in H.
    + apply lang_Lit_inv in H. congruence.
  - destruct (p c) eqn:Hp; split; intros H.
    + apply lang_Eps_inv in H as ->. now constructor.
    + apply lang_Class_inv in H as (c0 & E & _). injection E as -> ->. constructor.
    + now apply lang_Void_inv in H.
    + apply lang_Class_inv in H as (c0 & E & Hc). congruence.
  - assert (Hseq : lang (re.Seq (re.deriv c r1) r2) s ->
                   lang (re.Seq r1 r2) (String c s)).
    { intros H. apply lang_Seq_inv in H as (s1 & s2 & -> & H1 & H2).
      change (String c (s1 ++ s2)) with (String c s1 ++ s2)%string.
      constructor; [now apply IH1 | exact H2]. }
    assert (Hinv : lang (re.Seq r1 r2) (String c s) ->
                   lang (re.Seq (re.deriv c r1) r2) s
                   \/ (lang r1 "" /\ lang r2 (String c s))).
    { intros H. apply lang_Seq_inv in H as (s1 & s2 & E & H1 & H2).
      destruct s1 as [|c1 s1]; cbn in E.
      - right. subst s2. auto.
      - injection E as <- ->. left. constructor; [now apply IH1 | exact H2]. }
    destruct (re.nullable r1) eqn:Hn.
    + split; intros H.
      * apply lang_Alt_inv in H as [H|H]; [now apply Hseq|].
        change (String c s) with ("" ++ String c s)%string.
        constructor; [now apply nullable_lang | now apply IH2].
      * destruct (Hinv H) as [H'|[_ H']];
          [now apply lang_Alt_l | apply lang_Alt_r; now apply IH2].
    + split; intros H; [now apply Hseq|].
      destruct (Hinv H) as [H'|[H' _]]; [exact H'|].
      apply nullable_lang in H'. congruence.
  - split; intros H; apply lang_Alt_inv in H as [H|H];
      solve [apply lang_Alt_l; now apply IH1 | apply lang_Alt_r; now apply IH2].
  - split; intros H.
    + apply lang_Seq_inv in H as (s1 & s2 & -> & H1 & H2).
      change (String c (s1 ++ s2)) with (String c s1 ++ s2)%string.
      constructor; [now apply IH | exact H2].
    + apply lang_Star_cons in H as (s1 & s2 & -> & H1 & H2).
      constructor; [now apply IH | exact H2].
Qed.

(** [re.fullmatch] succeeds exactly on the strings of the pattern. *)
Lemma fullmatch_lang (r : re.pattern) (s : string) :
  re.fullmatch r s = true <-> lang r s.
Proof.
  revert r; induction s as [|c s IH]; intros r; cbn [re.fullmatch].
  - apply nullable_lang.
  - rewrite IH. apply deriv_lang.
Qed.

(** [re.match] succeeds exactly when some prefix is a string of the
    pattern. *)
Lemma match_lang (r : re.pattern) (s : string) :
  re.match_ r s = true <-> exists s1 s2, s = (s1 ++ s2)%string /\ lang r s1.
Proof.
  revert r; induction s as [|c s IH]; intros r; cbn [re.match_].
  - rewrite orb_false_r, nullable_lang. split.
    + intros H. exists "", "". auto.
    + intros (s1 & s2 & E & H). symmetry in E.
      apply append_eq_nil in E as [-> _]. exact H.
  - rewrite orb_true_iff, nullable_lang, IH. split.
    + intros [H|(s1 & s2 & -> & H)].
      * exists "", (String c s). auto.
      * exists (String c s1), s2. split; [reflexivity | now apply deriv_lang].
    + intros (s1 & s2 & E & H). destruct s1 as [|c1 s1].
      * now left.
      * cbn in E. injection E as <- ->. right.
        exists s1, s2. split; [reflexivity | now apply deriv_lang].
Qed.

(** ** What the name patterns accept *)

Lemma lang_Star_Class (p : ascii -> bool) (s : string) :
  lang (re.Star (re.Class p)) s <-> all_chars p s = true.
Proof.
  unfold all_chars; induction s as [|c s IH]; cbn [list_ascii_of_string forallb].
  - split; [reflexivity | constructor].
  - rewrite andb_true_iff, <- IH. split.
    + intros H. apply lang_Star_cons in H as (s1 & s2 & -> & H1 & H2).
      apply lang_Class_inv in H1 as (c0 & E & Hc). injection E as -> ->. auto.
    + intros [Hc H]. change (String c s) with (String c "" ++ s)%string.
      constructor; [now constructor | exact H].
Qed.

Lemma lang_Star_Lit (p : ascii -> bool) (c : ascii) (s : string) :
  p c = true -> lang (re.Star (re.Lit c)) s -> all_chars p s = true.
Proof.
  intros Hc; unfold all_chars; induction s as [|x s IH];
    cbn [list_ascii_of_string forallb]; intros H; [reflexivity|].
  apply lang_Star_cons in H as (s1 & s2 & -> & H1 & H2).
  apply lang_Lit_inv in H1. injection H1 as -> ->.
  rewrite Hc. exact (IH H2).
Qed.

Lemma all_chars_app (p : ascii -> bool) (a b : string) :
  all_chars p (a ++ b) = all_chars p a && all_chars p b.
Proof.
  unfold all_chars; induction a as [|c a IH]; cbn; [reflexivity|].
  now rewrite IH, andb_assoc.
Qed.

Lemma lang_snake_case (s : string) :
  lang snake_case s <-> s <> "" /\ all_chars snake_char s = true.
Proof.
  unfold snake_case, re.Plus. fold snake_char.
  change (fun c : ascii => snake_char c) with snake_char. split.
  - intros H. apply lang_Seq_inv in H as (u & v & -> & Hu & Hv).
    apply lang_Seq_inv in Hv as (v1 & v2 & -> & Hv1 & Hv2).
    apply lang_Class_inv in Hv1 as (c & -> & Hc).
    apply lang_Star_Class in Hv2.
    apply (lang_Star_Lit snake_char) in Hu; [|reflexivity].
    split.
    + intros E. apply append_eq_nil in E as [_ E]. discriminate.
    + rewrite !all_chars_app, Hu, Hv2. unfold all_chars; cbn. now rewrite Hc.
  - intros [Hne Hall]. destruct s as [|c s]; [congruence|].
    unfold all_chars in Hall; cbn in Hall. apply andb_true_iff in Hall as [Hc Hs].
    change (String c s) with ("" ++ (String c "" ++ s))%string.
    constructor; [constructor|].
    constructor; [now constructor | now apply lang_Star_Class].
Qed.

(** [snake_case_check] passes exactly the non-empty names made of lower-case
    ASCII letters, digits and underscores: the [_*] of the pattern adds
    nothing, and a name may start with a digit. *)
Theorem snake_case_check_accepts (name : string) :
  snake_case_check name = false <-> name <> "" /\ all_chars snake_char name = true.
Proof.
  unfold snake_case_check. rewrite <- lang_snake_case, <- fullmatch_lang.
  destruct (re.fullmatch snake_case name); cbn; split; congruence.
Qed.

(** [camel_case_check] passes exactly the names whose first character is an
    upper-case ASCII letter and whose second character is a word character;
    what follows is not looked at, and a one-letter name fails. *)
Theorem camel_case_check_accepts (name : string) :
  camel_case_check name = false
  <-> exists c1 c2 rest,
        name = String c1 (String c2 rest)
        /\ Str.in_range 65 90 c1 = true /\ re.word_char c2 = true.
Proof.
  unfold camel_case_check.
  assert (H : re.match_ camel_case name = true
              <-> exists c1 c2 rest,
                    name = String c1 (String c2 rest)
                    /\ Str.in_range 65 90 c1 = true /\ re.word_char c2 = true).
  { rewrite match_lang. unfold camel_case, re.Plus. split.
    - intros (s1 & s2 & -> & H).
      apply lang_Seq_inv in H as (u & v & -> & Hu & Hv).
      apply lang_Class_inv in Hu as (c1 & -> & Hc1).
      apply lang_Seq_inv in Hv as (v1 & v2 & -> & Hv1 & _).
      apply lang_Class_inv in Hv1 as (c2 & -> & Hc2).
      exists c1, c2, (v2 ++ s2)%string. cbn. auto.
    - intros (c1 & c2 & rest & -> & Hc1 & Hc2).
      exists (String c1 (String c2 "")), rest. split; [reflexivity|].
      change (String c1 (String c2 "")) with (String c1 "" ++ (String c2 "" ++ ""))%string.
      constructor; [now constructor|].
      constructor; [now constructor | constructor]. }
  rewrite <- H. destruct (re.match_ camel_case name); cbn; split; congruence.
Qed.

(** ** S007: spaces after [class] and [def] *)

Lemma lang_Word (w s : string) : lang (re.Word w) s <-> s = w.
Proof.
  revert s; induction w as [|c w IH]; intros s; cbn [re.Word].
  - split; [apply lang_Eps_inv | intros ->; constructor].
  - split.
    + intros H. apply lang_Seq_inv in H as (u & v & -> & Hu & Hv).
      apply lang_Lit_inv in Hu as ->. apply IH in Hv as ->. reflexivity.
    + intros ->. change (String c w) with (String c "" ++ w)%string.
      constructor; [constructor | now apply IH].
Qed.

Lemma lang_construction_name (s : string) :
  lang construction_name s <-> s = "class " \/ s = "def ".
Proof.
  unfold construction_name. split.
  - intros H. apply lang_Seq_inv in H as (u & v & -> & Hu & Hv).
    apply lang_Lit_inv in Hv as ->.
    apply lang_Alt_inv in Hu as [Hu|Hu]; apply lang_Word in Hu as ->; auto.
  - intros [-> | ->].
    + change "class " with ("class" ++ " ")%string.
      constructor; [apply lang_Alt_l; now apply lang_Word | constructor].
    + change "def " with ("def" ++ " ")%string.
      constructor; [apply lang_Alt_r; now apply lang_Word | constructor].
Qed.

(** S007 fires exactly when the line, leading whitespace dropped, starts
    with [class] or [def] and one space, and what follows the space is
    nothing or starts with a whitespace character. *)
Theorem spaces_after_construction_name_fires (line : string) :
  spaces_after_construction_name line = true
  <-> exists kw rest,
        (kw = "class " \/ kw = "def ")
        /\ Str.lstrip line = (kw ++ rest)%string
        /\ (rest = "" \/ exists c r, rest = String c r /\ Str.isspace c = true).
Proof.
  unfold spaces_after_construction_name.
  set (l := Str.lstrip line).
  assert (HA : re.match_ construction_name l = true
               <-> exists kw rest, (kw = "class " \/ kw = "def ") /\ l = (kw ++ rest)%string).
  { rewrite match_lang. split.
    - intros (s1 & s2 & E & H). apply lang_construction_name in H. eauto.
    - intros (kw & rest & H & E). exists kw, rest.
      split; [exact E | now apply lang_construction_name]. }
  assert (HB : re.match_ construction_name_then_name l = true
               <-> exists kw c r, (kw = "class " \/ kw = "def ")
                                  /\ l = (kw ++ String c r)%string
                                  /\ Str.isspace c = false).
  { rewrite match_lang. unfold construction_name_then_name. split.
    - intros (s1 & s2 & E & H).
      apply lang_Seq_inv in H as (u & v & -> & Hu & Hv).
      apply lang_construction_name in Hu.
      apply lang_Class_inv in Hv as (c & -> & Hc).
      exists u, c, s2. rewrite append_assoc in E.
      unfold re.non_space in Hc. apply negb_true_iff in Hc. auto.
    - intros (kw & c & r & Hkw & E & Hc).
      exists (kw ++ String c "")%string, r. split.
      + rewrite append_assoc. exact E.
      + constructor; [now apply lang_construction_name|].
        constructor. unfold re.non_space. now rewrite Hc. }
  assert (Hif : forall b : bool, (if b then true else false) = true <-> b = true)
    by (intros []; split; congruence).
  rewrite Hif, andb_true_iff, negb_true_iff. split.
  - intros [EA EB].
    apply HA in EA as (kw & rest & Hkw & E). exists kw, rest.
    split; [exact Hkw | split; [exact E|]].
    destruct rest as [|c r]; [now left | right].
    exists c, r. split; [reflexivity|].
    destruct (Str.isspace c) eqn:Hc; [reflexivity|].
    assert (HB' : re.match_ construction_name_then_name l = true)
      by (apply HB; exists kw, c, r; auto).
    congruence.
  - intros (kw & rest & Hkw & E & Hrest).
    split; [apply HA; eauto|].
    apply not_true_is_false. intros EB.
    apply HB in EB as (kw' & c & r & Hkw' & E' & Hc).
    rewrite E in E'.
    assert (Ekw : kw = kw').
    { destruct Hkw as [-> | ->], Hkw' as [-> | ->]; try reflexivity;
        cbn in E'; discriminate. }
    subst kw'.
    assert (Er : rest = String c r).
    { destruct Hkw as [-> | ->]; cbn in E'; now injection E'. }
    destruct Hrest as [-> | (c0 & r0 & -> & Hc0)]; [discriminate|].
    injection Er as -> ->. congruence.
Qed.

(** ** S002: indentation *)

Lemma lstrip_app (ws rest : string) :
  all_chars Str.isspace ws = true -> starts_with_space rest = false ->
  Str.lstrip (ws ++ rest) = rest.
Proof.
  intros Hws Hrest; induction ws as [|c ws IH]; cbn.
  - destruct rest as [|c r]; [reflexivity|]. cbn in *. now rewrite Hrest.
  - unfold all_chars in Hws; cbn in Hws. apply andb_true_iff in Hws as [Hc Hws].
    rewrite Hc. now apply IH.
Qed.

(** The indentation check counts the whitespace characters that start the
    line, a tab as one like a space, and fires when their number is no
    multiple of four. *)
Theorem indentation_check_counts (ws rest : string) :
  all_chars Str.isspace ws = true ->
  starts_with_space rest = false ->
  indentation_check (ws ++ rest) = negb (String.length ws mod 4 =? 0).
Proof.
  intros Hws Hrest. unfold indentation_check, Str.len.
  rewrite (lstrip_app ws rest Hws Hrest), length_append, Nat.add_sub.
  now destruct (String.length ws mod 4 =? 0).
Qed.

Lemma indentation_check_counts_witness :
  indentation_check ("   " ++ "x = 1") = negb (String.length "   " mod 4 =? 0).
Proof. apply (indentation_check_counts "   " "x = 1"); reflexivity. Defined.

(** ** S004: spaces before a comment *)

Lemma find_char_app (c : ascii) (a b : string) :
  Str.contains a (String c EmptyString) = false ->
  Str.find (a ++ String c b) (String c EmptyString) = Some (String.length a).
Proof.
  induction a as [|x a IH]; cbn [append String.length]; intros H.
  - now rewrite find_char_cons, Ascii.eqb_refl.
  - rewrite contains_char_cons in H. apply orb_false_iff in H as [Hx Ha].
    now rewrite find_char_cons, Hx, (IH Ha).
Qed.

Lemma eqb_two_spaces (s : string) : String.eqb s "  " = true -> String.length s = 2.
Proof. intros H. apply String.eqb_eq in H. now subst. Qed.

Lemma last_two_chars (code x : string) :
  2 <= String.length code ->
  String.eqb (String.substring (String.length code - 2) 2 (code ++ x)) "  "
  = Str.endswith code "  ".
Proof.
  induction code as [|c code IH]; cbn [String.length]; intros Hlen; [lia|].
  destruct (Nat.le_gt_cases 2 (String.length code)) as [H2|H2].
  - replace (S (String.length code) - 2) with (S (String.length code - 2)) by lia.
    cbn [append String.substring Str.endswith]. rewrite (IH H2).
    destruct (String.eqb (String c code) "  ") eqn:E; [|reflexivity].
    apply eqb_two_spaces in E. cbn in E. lia.
  - destruct code as [|d [|e code]]; cbn in Hlen, H2; try lia.
    destruct x; cbn; destruct (Ascii.eqb c " "), (Ascii.eqb d " "); reflexivity.
Qed.

(** For a line whose first [#] follows the text [code]: S004 fires exactly
    when [code] has at least three characters and does not end with two
    spaces.  A comment after fewer than three characters is never reported. *)
Theorem preceding_spaces_check_code (code rest : string) :
  Str.contains code "#" = false ->
  preceding_spaces_check (code ++ String "#" rest)
  = Ok ((2 <? String.length code) && negb (Str.endswith code "  ")).
Proof.
  intros Hcode. unfold preceding_spaces_check, Str.contains, Str.index.
  rewrite (find_char_app "#" code rest Hcode). cbn [bind].
  destruct (Nat.ltb_spec 2 (String.length code)) as [Hlen|Hlen]; cbn [andb];
    [|reflexivity].
  unfold Str.slice.
  replace (String.length code - (String.length code - 2)) with 2 by lia.
  rewrite last_two_chars by lia.
  now destruct (Str.endswith code "  ").
Qed.

Lemma preceding_spaces_check_code_witness :
  preceding_spaces_check ("x " ++ String "#" " note") = Ok false
  /\ preceding_spaces_check ("x = 1 " ++ String "#" " note") = Ok true.
Proof.
  split.
  - apply (preceding_spaces_check_code "x " " note"). reflexivity.
  - apply (preceding_spaces_check_code "x = 1 " " note"). reflexivity.
Defined.

(** ** S005: a [todo] in the comment *)

Lemma lower_app (a b : string) :
  Str.lower (a ++ b) = (Str.lower a ++ Str.lower b)%string.
Proof. induction a as [|c a IH]; cbn; [reflexivity | now rewrite IH]. Qed.

Lemma lower_char_hash (c : ascii) :
  Ascii.eqb "#" (Str.lower_char c) = Ascii.eqb "#" c.
Proof.
  destruct c as [b0 b1 b2 b3 b4 b5 b6 b7].
  destruct b0, b1, b2, b3, b4, b5, b6, b7; reflexivity.
Qed.

Lemma contains_hash_lower (s : string) :
  Str.contains (Str.lower s) "#" = Str.contains s "#".
Proof.
  induction s as [|c s IH]; [reflexivity|].
  cbn [Str.lower]. now rewrite !contains_char_cons, lower_char_hash, IH.
Qed.

Lemma length_lower (s : string) : String.length (Str.lower s) = String.length s.
Proof. induction s as [|c s IH]; cbn; [reflexivity | now rewrite IH]. Qed.

(** A string that lacks the character [c] starts [a ++ c :: b] only if it
    starts [a]. *)
Lemma startswith_app_char (c : ascii) (sub a b : string) :
  Str.mem c sub = false ->
  Str.startswith (a ++ String c b) sub = Str.startswith a sub.
Proof.
  unfold Str.startswith, Str.mem.
  revert a; induction sub as [|x sub IH]; intros a Hc.
  - now destruct a.
  - cbn [list_ascii_of_string existsb] in Hc. apply orb_false_iff in Hc as [Hx Hsub].
    destruct a as [|y a]; cbn [append String.prefix].
    + destruct (Ascii.ascii_dec x c) as [->|_]; [|reflexivity].
      now rewrite Ascii.eqb_refl in Hx.
    + destruct (Ascii.ascii_dec x y); [now apply IH | reflexivity].
Qed.

Lemma find_app_char (c : ascii) (sub a b : string) :
  Str.mem c sub = false ->
  Str.find (a ++ String c b) sub
  = match Str.find a sub with
    | Some i => Some i
    | None => option_map (fun k => String.length a + 1 + k) (Str.find b sub)
    end.
Proof.
  intros Hc; induction a as [|y a IH].
  - change ("" ++ String c b)%string with (String c b).
    change (Str.find (String c b) sub)
      with (if Str.startswith (String c b) sub then Some 0
            else option_map S (Str.find b sub)).
    change (String c b) with ("" ++ String c b)%string at 1.
    rewrite (startswith_app_char c sub "" b Hc).
    change (Str.find "" sub) with (if Str.startswith "" sub then Some 0 else None).
    destruct (Str.startswith "" sub); [reflexivity|].
    now destruct (Str.find b sub).
  - change (Str.find (String y a ++ String c b) sub)
      with (if Str.startswith (String y a ++ String c b) sub then Some 0
            else option_map S (Str.find (a ++ String c b) sub)).
    change (Str.find (String y a) sub)
      with (if Str.startswith (String y a) sub then Some 0
            else option_map S (Str.find a sub)).
    rewrite (startswith_app_char c sub (String y a) b Hc), IH.
    destruct (Str.startswith (String y a) sub); [reflexivity|].
    destruct (Str.find a sub); [reflexivity|].
    now destruct (Str.find b sub).
Qed.

Lemma find_le (s sub : string) (i : nat) :
  Str.find s sub = Some i -> i <= String.length s.
Proof.
  revert i; induction s as [|c s IH]; intros i.
  - change (Str.find "" sub) with (if Str.startswith "" sub then Some 0 else None).
    destruct (Str.startswith "" sub); [intros [= <-]; cbn; lia | discriminate].
  - change (Str.find (String c s) sub)
      with (if Str.startswith (String c s) sub then Some 0
            else option_map S (Str.find s sub)).
    destruct (Str.startswith (String c s) sub); [intros [= <-]; lia|].
    destruct (Str.find s sub) as [k|]; [|discriminate].
    intros [= <-]. specialize (IH k eq_refl). cbn. lia.
Qed.

(** For a line whose first [#] follows the text [code]: S005 fires exactly
    when [code] holds no [todo] and the comment holds one, in any mix of
    upper and lower case. *)
Theorem todo_check_comment (code comment : string) :
  Str.contains code "#" = false ->
  todo_check (code ++ String "#" comment)
  = Ok (negb (Str.contains (Str.lower code) "todo")
        && Str.contains (Str.lower comment) "todo").
Proof.
  intros Hcode. unfold todo_check.
  rewrite lower_app. cbn [Str.lower].
  change (Str.lower_char "#") with "#"%char.
  rewrite <- contains_hash_lower in Hcode.
  unfold Str.contains at 1 2, Str.index.
  rewrite (find_char_app "#" (Str.lower code) (Str.lower comment) Hcode).
  rewrite (find_app_char "#" "todo" (Str.lower code) (Str.lower comment) eq_refl).
  unfold Str.contains.
  destruct (Str.find (Str.lower code) "todo") as [i|] eqn:Hi; cbn [andb negb bind].
  - apply find_le in Hi.
    destruct (Nat.ltb_spec (String.length (Str.lower code)) i); [lia | reflexivity].
  - destruct (Str.find (Str.lower comment) "todo") as [k|]; cbn [option_map bind];
      [|reflexivity].
    destruct (Nat.ltb_spec (String.length (Str.lower code))
                (String.length (Str.lower code) + 1 + k)); [reflexivity | lia].
Qed.

Lemma todo_check_comment_witness :
  todo_check ("x = 1  " ++ String "#" " ToDo later") = Ok true
  /\ todo_check ("todo = 1  " ++ String "#" " TODO") = Ok false.
Proof.
  split.
  - apply (todo_check_comment "x = 1  " " ToDo later"). reflexivity.
  - apply (todo_check_comment "todo = 1  " " TODO"). reflexivity.
Defined.

(** ** When [message] returns *)

Lemma getitem_outcome {V : Type} (d : list (string * V)) (key : string) :
  if existsb (String.eqb key) (map fst d)
  then exists v, getitem d key = Ok v
  else getitem d key = Raise KeyError.
Proof.
  induction d as [|[k v] d IH]; cbn [getitem map fst existsb]; [reflexivity|].
  rewrite (String.eqb_sym key k).
  destruct (String.eqb k key); cbn [orb]; [eauto | exact IH].
Qed.

Lemma is_naming_code_cases (code : string) :
  is_naming_code code = true ->
  code = "S008" \/ code = "S009" \/ code = "S010" \/ code = "S011".
Proof.
  unfold is_naming_code, naming_codes; cbn [existsb].
  rewrite !orb_true_iff, !String.eqb_eq. intuition discriminate.
Qed.

(** [message] returns unless it looks up a subject that is not there
    ([IndexError], for a naming code without a subject) or a code that is
    not in the catalogue ([KeyError]). *)
Theorem message_outcome (e : Error) :
  match message e with
  | Ok _ =>
      code_known (error_code e) = true
      /\ (is_naming_code (error_code e) = true -> additional_info e <> [])
  | Raise x =>
      if is_naming_code (error_code e)
      then additional_info e = [] /\ x = IndexError
      else code_known (error_code e) = false /\ x = KeyError
  end.
Proof.
  destruct e as [p n code info]; unfold message; cbn [error_code additional_info path line_num].
  destruct (is_naming_code code) eqn:Hn.
  - destruct info as [|name info]; cbn [item0 bind]; [auto|].
    apply is_naming_code_cases in Hn as [-> | [-> | [-> | ->]]]; cbn;
      (split; [reflexivity | discriminate]).
  - pose proof (getitem_outcome error_codes code) as H. fold (code_known code) in H.
    destruct (code_known code).
    + destruct H as [t ->]. cbn [bind].
      destruct t; cbn [bind]; (split; [reflexivity | discriminate]).
    + rewrite H. cbn [bind]. auto.
Qed.

(** ** The violations of a report *)

Lemma line_errors_Forall (P : Error -> Prop) file_path lines item :
  (forall code, In code line_codes -> P (mkError file_path (fst item + 1) code [])) ->
  Forall P (line_errors file_path lines item).
Proof.
  intros HP. unfold line_errors.
  repeat (apply Forall_app; split);
    match goal with |- Forall _ (if ?b then _ else _) => destruct b end;
    repeat constructor; apply HP; cbn; tauto.
Qed.

Lemma visit_Forall (P : Error -> Prop) file_path errors node errors' :
  (forall lineno code name, In code naming_codes ->
                            P (mkError file_path lineno code [name])) ->
  (forall lineno, P (mkError file_path lineno "S012" [])) ->
  visit file_path errors node = Ok errors' ->
  Forall P errors -> Forall P errors'.
Proof.
  intros Hname Hmut Hvisit Herrors.
  destruct node as [n|a|a]; try (injection Hvisit as <-; exact Herrors).
  destruct n; try (injection Hvisit as <-; exact Herrors).
  - unfold visit in Hvisit; cbn [visit_ClassDef visit_FunctionDef visit_Assign] in Hvisit.
    injection Hvisit as <-. rewrite append_if_app.
    apply Forall_app_one; [exact Herrors | apply Hname; cbn; tauto].
  - rewrite visit_FunctionDef_eq in Hvisit. injection Hvisit as <-.
    unfold function_def_errors.
    repeat (apply Forall_app; split); auto.
    + destruct (snake_case_check name); repeat constructor. apply Hname; cbn; tauto.
    + destruct (existsb _ _); repeat constructor. apply Hname; cbn; tauto.
    + apply Forall_forall. intros e He. apply in_map_iff in He as (d & <- & _).
      apply Hmut.
  - unfold visit in Hvisit; cbn [visit_ClassDef visit_FunctionDef visit_Assign] in Hvisit.
    destruct targets as [|target rest]; [discriminate|]. cbn [item0 bind] in Hvisit.
    destruct target; injection Hvisit as <-; try exact Herrors.
    rewrite append_if_app.
    apply Forall_app_one; [exact Herrors | apply Hname; cbn; tauto].
Qed.

Lemma report_Forall (P : Error -> Prop) read parse file_path errors :
  (forall n code, In code line_codes -> P (mkError file_path n code [])) ->
  (forall lineno code name, In code naming_codes ->
                            P (mkError file_path lineno code [name])) ->
  (forall lineno, P (mkError file_path lineno "S012" [])) ->
  static_code_analyzer read parse file_path = Ok errors ->
  Forall P errors.
Proof.
  intros Hline Hname Hmut H.
  apply static_code_analyzer_Ok in H as (code & tree & found & _ & _ & Hfound & ->).
  apply sorted_Forall, Forall_app; split.
  - apply Forall_flat_map, Forall_forall. intros item _.
    apply line_errors_Forall. intros; now apply Hline.
  - unfold file_as_ast_analyzer in Hfound.
    eapply (for_each_invariant (Forall P)); [|exact Hfound|constructor].
    intros s x s' Hx Hs. eapply visit_Forall; eassumption.
Qed.

(** Every violation of a report bears the path the driver was given, and
    [message] renders it, without raising, as
    [<path>: Line <line>: <code> <text>]. *)
Theorem report_messages read parse file_path errors :
  static_code_analyzer read parse file_path = Ok errors ->
  Forall (fun e => path e = file_path /\ exists text, printed_as e text) errors.
Proof.
  apply report_Forall; unfold printed_as.
  - intros n code Hc. split; [reflexivity|].
    cbn in Hc. decompose [or] Hc; subst; try contradiction; eexists; reflexivity.
  - intros n code name Hc. split; [reflexivity|].
    cbn in Hc. decompose [or] Hc; subst; try contradiction; eexists; reflexivity.
  - intros n. split; [reflexivity | eexists; reflexivity].
Qed.

Lemma report_messages_witness :
  Forall (fun e => path e = "t.py" /\ exists text, printed_as e text)
    [mkError "t.py" 1 "S008" ["my_class"]; mkError "t.py" 2 "S003" []].
Proof.
  apply (report_messages (fun _ => Ok two_line_file) (fun _ => Ok two_line_tree) "t.py").
  vm_compute. reflexivity.
Defined.

(** ** The outcome of the tree scan *)

Lemma visit_outcome file_path errors x :
  visit file_path errors x
  = if targetless x then Raise IndexError
    else Ok (errors ++ node_errors file_path x).
Proof.
  destruct x as [n|a|a]; try (cbn; now rewrite app_nil_r).
  destruct n; try (cbn; now rewrite app_nil_r).
  - unfold visit; cbn [visit_ClassDef visit_FunctionDef visit_Assign targetless node_errors].
    now rewrite append_if_app.
  - now rewrite visit_FunctionDef_eq.
  - unfold visit; cbn [visit_ClassDef visit_FunctionDef visit_Assign].
    destruct targets as [|target rest]; [reflexivity|].
    cbn [item0 bind targetless node_errors].
    destruct target; try (now rewrite app_nil_r).
    now rewrite append_if_app.
Qed.

Lemma for_each_visit file_path items errors :
  for_each (visit file_path) items errors
  = if existsb targetless items then Raise IndexError
    else Ok (errors ++ flat_map (node_errors file_path) items).
Proof.
  revert errors; induction items as [|x items IH]; intros errors;
    cbn [for_each existsb flat_map].
  - now rewrite app_nil_r.
  - rewrite visit_outcome. destruct (targetless x); cbn [bind orb]; [reflexivity|].
    rewrite IH. destruct (existsb targetless items); [reflexivity|].
    now rewrite app_assoc.
Qed.

(** The tree scan raises [IndexError] exactly when the walk meets an
    assignment without targets; otherwise it returns, in the order of the
    walk, what each object yields. *)
Theorem tree_scan_outcome (file_path : string) (tree : ast.node) :
  file_as_ast_analyzer file_path tree
  = if existsb targetless (ast.walk tree) then Raise IndexError
    else Ok (flat_map (node_errors file_path) (ast.walk tree)).
Proof. unfold file_as_ast_analyzer. now rewrite for_each_visit. Qed.

(** ** What [ast.walk] yields *)

Lemma todo_size_cons (x : ast.AST) (rest : list ast.AST) :
  todo_size (x :: rest) = S (todo_size (rest ++ ast.iter_child_nodes x)).
Proof.
  pose proof (size_children x) as Hx. unfold todo_size in *.
  rewrite map_cons, list_sum_cons, map_app, list_sum_app. lia.
Qed.

Lemma walk_todo_queue (fuel : nat) (todo : list ast.AST) (x : ast.AST) :
  todo_size todo <= fuel -> In x todo -> In x (ast.walk_todo fuel todo).
Proof.
  revert todo; induction fuel as [|fuel IH]; intros todo Hfuel Hx;
    destruct todo as [|y rest]; try contradiction.
  - rewrite todo_size_cons in Hfuel. lia.
  - rewrite todo_size_cons in Hfuel. cbn [ast.walk_todo].
    destruct Hx as [->|Hx]; [now left | right].
    apply IH; [lia | apply in_or_app; now left].
Qed.

Lemma walk_todo_children (fuel : nat) (todo : list ast.AST) (x c : ast.AST) :
  todo_size todo <= fuel ->
  In x (ast.walk_todo fuel todo) -> In c (ast.iter_child_nodes x) ->
  In c (ast.walk_todo fuel todo).
Proof.
  revert todo; induction fuel as [|fuel IH]; intros todo Hfuel Hx Hc;
    destruct todo as [|y rest]; try contradiction.
  rewrite todo_size_cons in Hfuel. cbn [ast.walk_todo] in *. right.
  destruct Hx as [->|Hx].
  - apply walk_todo_queue; [lia | apply in_or_app; now right].
  - apply IH; [lia | assumption | assumption].
Qed.

Lemma walk_todo_only (root : ast.AST) (fuel : nat) (todo : list ast.AST) :
  Forall (descendant root) todo ->
  Forall (descendant root) (ast.walk_todo fuel todo).
Proof.
  revert todo; induction fuel as [|fuel IH]; intros todo Htodo;
    cbn [ast.walk_todo]; [constructor|].
  destruct todo as [|y rest]; [constructor|].
  inversion Htodo as [|? ? Hy Hrest]; subst.
  constructor; [exact Hy|].
  apply IH, Forall_app; split; [exact Hrest|].
  apply Forall_forall. intros c Hc. now apply descendant_child with y.
Qed.

Lemma descendant_in_walk (tree : ast.node) (x : ast.AST) :
  descendant (ast.Node tree) x -> In x (ast.walk tree).
Proof.
  unfold ast.walk.
  assert (Hsize : todo_size [ast.Node tree] <= ast.size tree)
    by (unfold todo_size; cbn; lia).
  induction 1 as [|y c _ IH Hc].
  - apply walk_todo_queue; [exact Hsize | now left].
  - now apply walk_todo_children with y.
Qed.

(** [ast.walk] yields the tree and everything below it, at any depth, and
    nothing else. *)
Theorem walk_yields_descendants (tree : ast.node) (x : ast.AST) :
  In x (ast.walk tree) <-> descendant (ast.Node tree) x.
Proof.
  split; [|apply descendant_in_walk].
  intros H.
  assert (Hall : Forall (descendant (ast.Node tree)) (ast.walk tree))
    by (apply walk_todo_only; repeat constructor).
  now apply (proj1 (Forall_forall _ _) Hall).
Qed.

(** A definition or assignment nested at any depth is scanned: when the tree
    scan returns, its report holds what each object below the root yields. *)
Theorem nested_objects_scanned file_path tree errors x :
  file_as_ast_analyzer file_path tree = Ok errors ->
  descendant (ast.Node tree) x ->
  incl (node_errors file_path x) errors.
Proof.
  unfold file_as_ast_analyzer. rewrite for_each_visit.
  destruct (existsb targetless (ast.walk tree)); [discriminate|].
  intros [= <-] Hx e He.
  apply in_flat_map. exists x. split; [now apply descendant_in_walk | exact He].
Qed.

Lemma nested_objects_scanned_witness :
  incl [mkError "t.py" 2 "S009" ["Inner"]] [mkError "t.py" 2 "S009" ["Inner"]].
Proof.
  apply (nested_objects_scanned "t.py" nested_def
           [mkError "t.py" 2 "S009" ["Inner"]]
           (ast.Node (ast.FunctionDef 2 "Inner" no_arguments [Pass] [] None))).
  - reflexivity.
  - apply descendant_child
      with (ast.Node (ast.FunctionDef 1 "outer" no_arguments
                        [ast.FunctionDef 2 "Inner" no_arguments [Pass] [] None] [] None)).
    + apply descendant_child with (ast.Node nested_def); [constructor | cbn; auto].
    + cbn. auto.
Defined.

(** ** More on the line scan *)

Lemma in_combine_seq {A : Type} (l : list A) (a i : nat) (x : A) :
  nth_error l i = Some x -> In (a + i, x) (combine (seq a (List.length l)) l).
Proof.
  revert a i; induction l as [|y l IH]; intros a i H; [now destruct i|].
  destruct i as [|i]; cbn in *.
  - injection H as ->. rewrite Nat.add_0_r. now left.
  - right. replace (a + S i) with (S a + i) by lia. now apply IH.
Qed.

Lemma in_enumerate {A : Type} (l : list A) (i : nat) (x : A) :
  nth_error l i = Some x -> In (i, x) (enumerate l).
Proof. intros H. exact (in_combine_seq l 0 i x H). Qed.

Lemma enumerate_bound {A : Type} (l : list A) (item : nat * A) :
  In item (enumerate l) -> fst item < List.length l.
Proof.
  unfold enumerate. destruct item as [i x]. intros H.
  apply in_combine_l, in_seq in H. cbn. lia.
Qed.

(** Every violation of the line scan bears the path given, no subject, and
    the number of one of the lines, counted from 1. *)
Theorem line_scan_line_numbers (file_path : string) (lines : list string) :
  exists errors,
    file_as_strings_analyzer file_path lines = Ok errors
    /\ Forall (fun e => path e = file_path
                        /\ 1 <= line_num e <= List.length lines
                        /\ additional_info e = []) errors.
Proof.
  eexists; split; [apply file_as_strings_analyzer_eq|].
  apply Forall_flat_map, Forall_forall. intros item Hitem.
  apply enumerate_bound in Hitem.
  apply line_errors_Forall. intros code _; cbn. repeat split; lia.
Qed.

(** The fourth of four consecutive empty lines is itself reported: S006
    does not ask the line it reports to be a line of code. *)
Theorem fourth_blank_line_reported (file_path : string) (pre post : list string) :
  exists errors,
    file_as_strings_analyzer file_path (pre ++ [""; ""; ""; ""] ++ post) = Ok errors
    /\ In (mkError file_path (List.length pre + 4) "S006" []) errors.
Proof.
  set (lines := pre ++ [""; ""; ""; ""] ++ post).
  eexists; split; [apply file_as_strings_analyzer_eq|].
  apply in_flat_map. exists (List.length pre + 3, "").
  split.
  - apply in_enumerate. unfold lines.
    rewrite nth_error_app2 by lia.
    now replace (List.length pre + 3 - List.length pre) with 3 by lia.
  - apply (proj1 (filter_In (has_code "S006") _ _)).
    rewrite line_errors_S006; cbn [fst].
    assert (H : blank_lines_before lines (List.length pre + 3) = true).
    { apply blank_lines_before_iff. split; [lia|].
      replace (List.length pre + 3 - 3) with (List.length pre) by lia.
      unfold blank3, lines.
      rewrite !(app_nth2 pre) by lia.
      replace (List.length pre - List.length pre) with 0 by lia.
      replace (S (List.length pre) - List.length pre) with 1 by lia.
      replace (S (S (List.length pre)) - List.length pre) with 2 by lia.
      auto. }
    rewrite H. replace (List.length pre + 3 + 1) with (List.length pre + 4) by lia.
    now left.
Qed.

(** ** The lines the driver scans *)

Lemma contains_of_list (c : ascii) (l : list ascii) :
  Str.contains (string_of_list_ascii l) (String c EmptyString)
  = existsb (Ascii.eqb c) l.
Proof.
  induction l as [|x l IH]; [reflexivity|].
  cbn [string_of_list_ascii existsb]. now rewrite contains_char_cons, IH.
Qed.

Lemma existsb_rev_eq {A : Type} (f : A -> bool) (l : list A) :
  existsb f (rev l) = existsb f l.
Proof.
  induction l as [|x l IH]; [reflexivity|].
  cbn [rev existsb]. rewrite existsb_app, IH. cbn. now rewrite orb_false_r, orb_comm.
Qed.

Lemma line_feed_is_linebreak (c : ascii) :
  Ascii.eqb "010" c = true -> Str.is_linebreak c = true.
Proof. intros H. apply Ascii.eqb_eq in H. now subst. Qed.

Lemma splitlines_from_no_LF (n : nat) (s : string) (cur : list ascii) :
  String.length s <= n ->
  existsb (Ascii.eqb "010") cur = false ->
  Forall (fun line => Str.contains line LF = false) (Str.splitlines_from cur s).
Proof.
  revert s cur; induction n as [|n IH]; intros s cur Hlen Hcur.
  - destruct s; [|cbn in Hlen; lia]. cbn.
    destruct cur; repeat constructor.
    unfold Str.string_rev_append, LF. now rewrite contains_of_list, existsb_rev_eq.
  - assert (Hline : Str.contains (Str.string_rev_append cur) LF = false).
    { unfold Str.string_rev_append, LF. now rewrite contains_of_list, existsb_rev_eq. }
    destruct s as [|c s]; cbn [Str.splitlines_from].
    + destruct cur; repeat constructor. exact Hline.
    + cbn in Hlen. destruct (Str.is_linebreak c) eqn:Hc.
      * destruct s as [|c' s'].
        -- constructor; [exact Hline | constructor].
        -- destruct ((Str.code c =? 13)%N && (Str.code c' =? 10)%N)%bool;
             (constructor; [exact Hline|]); apply IH; cbn in *; try lia; reflexivity.
      * apply IH; [lia|]. cbn [existsb]. rewrite Hcur, orb_false_r.
        destruct (Ascii.eqb "010" c) eqn:E; [|reflexivity].
        apply line_feed_is_linebreak in E. congruence.
Qed.

(** No line that [splitlines] returns holds a line feed, so the
    [line.strip('\n')] of the line scan leaves the driver's lines as they
    are. *)
Theorem splitlines_lines_unstripped (code : string) :
  Forall (fun line => Str.contains line LF = false
                      /\ Str.strip_chars LF line = line)
         (Str.splitlines code).
Proof.
  eapply Forall_impl;
    [|apply (splitlines_from_no_LF (String.length code) code []); [lia | reflexivity]].
  intros line H. split; [exact H|].
  unfold Str.strip_chars. now rewrite rstrip_chars_no_LF, lstrip_chars_no_LF.
Qed.

(** ** Sorting a report again *)

Lemma key_le_not_lt (k1 k2 : nat * string) : key_le k1 k2 -> tuple_lt k2 k1 = false.
Proof.
  unfold key_le, tuple_lt. intros [H|[E H]].
  - destruct (Nat.eqb_spec (fst k2) (fst k1)); [lia|]. apply Nat.ltb_ge. lia.
  - rewrite E, Nat.eqb_refl. unfold str_lt.
    destruct (String_as_OT.compare_spec (snd k2) (snd k1)) as [C|C|C]; try reflexivity.
    exfalso. destruct H as [H|H].
    + rewrite H in C. exact (RelationClasses.StrictOrder_Irreflexive _ C).
    + exact (RelationClasses.StrictOrder_Irreflexive _
               (RelationClasses.StrictOrder_Transitive _ _ _ H C)).
Qed.

Lemma sorted_of_ordered (l : list Error) :
  StronglySorted key_ordered l -> sorted tuple_lt sort_key l = l.
Proof.
  induction 1 as [|x l Hl IH Hx]; [reflexivity|].
  cbn [sorted fold_right]. fold (sorted tuple_lt sort_key l). rewrite IH.
  destruct l as [|y l]; [reflexivity|]. cbn [insert_sorted].
  inversion Hx as [|? ? Hxy _]; subst.
  now rewrite (key_le_not_lt _ _ Hxy).
Qed.

(** Sorting a sorted list of violations changes nothing: [sorted] applied
    twice gives what it gives once. *)
Theorem sorted_idempotent (l : list Error) :
  sorted tuple_lt sort_key (sorted tuple_lt sort_key l) = sorted tuple_lt sort_key l.
Proof. apply sorted_of_ordered, sorted_ordered. Qed.

(** ** [get_files] *)

Lemma fold_left_append {A B : Type} (f : A -> B) (l : list A) (acc : list B) :
  fold_left (fun acc x => acc ++ [f x]) l acc = acc ++ map f l.
Proof.
  revert acc; induction l as [|x l IH]; intros acc; cbn [fold_left map].
  - now rewrite app_nil_r.
  - rewrite IH. now rewrite <- app_assoc.
Qed.

(** One turn of the loop leaves the stack [full_path] empty, as it found
    it, and appends the files of the directory, each joined to [root]. *)
Lemma walk_step_empty_stack (path_files : list string)
    (root : string) (dirs files : list string) :
  walk_step (path_files, []) (root, dirs, files)
  = (path_files ++ map (join_component root) files, []).
Proof.
  unfold walk_step. cbn [app pop removelast hd tl].
  f_equal. destruct files as [|file files]; [now rewrite app_nil_r|].
  exact (fold_left_append (join_component root) (file :: files) path_files).
Qed.

Lemma fold_walk_step (items : list (string * list string * list string))
    (path_files : list string) :
  fold_left walk_step items (path_files, [])
  = (path_files
     ++ flat_map (fun item => map (join_component (fst (fst item))) (snd item)) items,
     []).
Proof.
  revert path_files; induction items as [|[[root dirs] files] items IH];
    intros path_files; cbn [fold_left flat_map fst snd].
  - now rewrite app_nil_r.
  - rewrite walk_step_empty_stack, IH. now rewrite <- app_assoc.
Qed.

(** A path that ends with [.txt] or [.py] is returned as it is, whatever
    it names, and [os.walk] is not asked.  For any other path [get_files]
    returns every file of every directory that [os.walk] yields, whatever
    its extension, in the order of the walk, each joined to the directory
    that holds it. *)
Theorem get_files_lists_every_file
    (os_walk : string -> list (string * list string * list string)) (path : string) :
  get_files os_walk path
  = if Str.endswith path ".txt" || Str.endswith path ".py" then [path]
    else flat_map (fun item => map (join_component (fst (fst item))) (snd item))
                  (os_walk path).
Proof.
  unfold get_files.
  destruct (Str.endswith path ".txt" || Str.endswith path ".py"); [reflexivity|].
  now rewrite fold_walk_step.
Qed.

(** ** [main] *)

Lemma print_all_rendered (errors : list Error) (stdout : list string) :
  Forall (fun e => exists line, message e = Ok line) errors ->
  print_all errors stdout = (stdout ++ map rendered errors, Ok tt).
Proof.
  intros H; revert stdout; induction H as [|e errors [line He] _ IH]; intros stdout;
    cbn [print_all map].
  - now rewrite app_nil_r.
  - unfold rendered at 1. rewrite He, IH. now rewrite <- app_assoc.
Qed.

Lemma report_printable read parse file_path errors :
  static_code_analyzer read parse file_path = Ok errors ->
  Forall (fun e => exists line, message e = Ok line) errors.
Proof.
  apply report_Forall.
  - intros n code Hc.
    cbn in Hc. decompose [or] Hc; subst; try contradiction; eexists; reflexivity.
  - intros n code name Hc.
    cbn in Hc. decompose [or] Hc; subst; try contradiction; eexists; reflexivity.
  - intros n. eexists; reflexivity.
Qed.

Lemma analyze_files_reports read parse (report : string -> list Error)
    (files : list string) :
  (forall f, In f files -> static_code_analyzer read parse f = Ok (report f)) ->
  analyze_files read parse files = Ok (flat_map report files).
Proof.
  intros H. unfold analyze_files.
  rewrite (for_each_appends _ report); [reflexivity|].
  intros errors f Hf. now rewrite (H f Hf).
Qed.

Lemma analyze_files_raises read parse (good : list string) (bad : string)
    (others : list string) (e : exception) (errors : list Error) :
  (forall f, In f good -> exists r, static_code_analyzer read parse f = Ok r) ->
  static_code_analyzer read parse bad = Raise e ->
  for_each (fun errors file_path =>
              found <- static_code_analyzer read parse file_path ;;
              Ok (errors ++ found))
           (good ++ bad :: others) errors
  = Raise e.
Proof.
  intros Hgood Hbad; revert errors; induction good as [|f good IH]; intros errors;
    cbn [app for_each].
  - now rewrite Hbad.
  - destruct (Hgood f (or_introl eq_refl)) as [r ->]. cbn [bind].
    apply IH. intros g Hg. apply Hgood. now right.
Qed.

(** When every file found is analysed without failure, [main] prints, file
    after file in the order found, the rendered violations of each file's
    sorted report, and ends normally. *)
Theorem main_prints_reports read parse os_walk
    (program path : string) (more : list string) (report : string -> list Error) :
  (forall f, In f (get_files os_walk path) ->
             static_code_analyzer read parse f = Ok (report f)) ->
  main read parse os_walk (program :: path :: more)
  = (map rendered (flat_map report (get_files os_walk path)), Ok tt).
Proof.
  intros H. unfold main; cbn [nth_error].
  rewrite (analyze_files_reports read parse report _ H).
  rewrite print_all_rendered; [reflexivity|].
  apply Forall_flat_map, Forall_forall. intros f Hf.
  exact (report_printable read parse f (report f) (H f Hf)).
Qed.

(** When the analysis of some file found fails, [main] prints nothing, not
    even the violations of the files analysed before it, and ends with
    the exception of the first file that failed. *)
Theorem main_prints_nothing_on_failure read parse os_walk
    (program path : string) (more : list string)
    (good : list string) (bad : string) (others : list string) (e : exception) :
  get_files os_walk path = good ++ bad :: others ->
  (forall f, In f good -> exists r, static_code_analyzer read parse f = Ok r) ->
  static_code_analyzer read parse bad = Raise e ->
  main read parse os_walk (program :: path :: more) = ([], Raise e).
Proof.
  intros Hfiles Hgood Hbad. unfold main; cbn [nth_error].
  rewrite Hfiles. unfold analyze_files.
  now rewrite (analyze_files_raises read parse good bad others e [] Hgood Hbad).
Qed.

Lemma main_prints_reports_witness :
  main sample_read sample_parse sample_walk ["code_analyzer.py"; "proj/a.py"]
  = (["proj/a.py: Line 1: S008 Class name 'my_class' should be written in CamelCase";
      "proj/a.py: Line 2: S003 Unnecessary semicolon"], Ok tt).
Proof.
  apply (main_prints_reports sample_read sample_parse sample_walk
           "code_analyzer.py" "proj/a.py" [] sample_report).
  intros f Hf. vm_compute in Hf. destruct Hf as [<-|[]]. vm_compute. reflexivity.
Defined.

Lemma main_prints_nothing_on_failure_witness :
  main sample_read sample_parse sample_walk ["code_analyzer.py"; "proj"]
  = ([], Raise SyntaxError).
Proof.
  apply (main_prints_nothing_on_failure sample_read sample_parse sample_walk
           "code_analyzer.py" "proj" [] ["proj/a.py"] "proj/pkg/b.py" [] SyntaxError).
  - vm_compute. reflexivity.
  - intros f [<-|[]]. eexists. vm_compute. reflexivity.
  - vm_compute. reflexivity.
Defined.

(** ** S003 by code and comment *)

Lemma substring_prefix (a b : string) :
  String.substring 0 (String.length a) (a ++ b) = a.
Proof.
  induction a as [|c a IH]; cbn [String.length append String.substring].
  - now destruct b.
  - now rewrite IH.
Qed.

Lemma contains_char_app (c : ascii) (a b : string) :
  Str.contains (a ++ String c b) (String c EmptyString) = true.
Proof.
  induction a as [|x a IH]; cbn [append]; rewrite contains_char_cons.
  - now rewrite Ascii.eqb_refl.
  - rewrite IH. apply orb_true_r.
Qed.

(** For a line whose first [#] follows the text [code]: S003 fires exactly
    when [code] holds a [;], wherever in [code] it stands.  A line without
    [#] is reported exactly when it ends with [;]. *)
Theorem semicolon_check_comment (code comment : string) :
  Str.contains code "#" = false ->
  semicolon_check (code ++ String "#" comment) = Ok (Str.contains code ";")
  /\ semicolon_check code = Ok (Str.endswith code ";").
Proof.
  intros Hcode. rewrite !semicolon_check_eq, Hcode, contains_char_app.
  split; [|reflexivity].
  unfold code_portion. rewrite (find_char_app "#" code comment Hcode).
  unfold Str.slice. now rewrite Nat.sub_0_r, substring_prefix.
Qed.

Lemma semicolon_check_comment_witness :
  semicolon_check ("x = 1; y = 2  " ++ String "#" " both") = Ok true
  /\ semicolon_check "x = 1; y = 2  " = Ok false.
Proof. apply (semicolon_check_comment "x = 1; y = 2  " " both"). reflexivity. Defined.

(** ** The text of a naming violation *)

(** For a code whose catalogue entry is the list of two parts, [message]
    puts the first subject between the parts; further subjects are not
    used. *)
Theorem message_naming (p : string) (n : nat) (code name : string)
    (more : list string) (before after : string) :
  getitem error_codes code = Ok (Parts [before; after]) ->
  message (mkError p n code (name :: more))
  = Ok (p ++ ": Line " ++ Str.of_nat n ++ ": " ++ code ++ " "
        ++ before ++ name ++ after)%string.
Proof.
  intros H. pose proof (list_valued_codes code _ H) as Hn.
  unfold message; cbn [error_code additional_info path line_num].
  rewrite Hn, H. cbn [item0 bind template_items Str.join String.concat].
  reflexivity.
Qed.

Lemma message_naming_witness :
  message (mkError "t.py" 3 "S011" ["BadName"])
  = Ok "t.py: Line 3: S011 Variable 'BadName' should be written in snake_case".
Proof.
  apply (message_naming "t.py" 3 "S011" "BadName" [] "Variable '"
           "' should be written in snake_case").
  reflexivity.
Defined.
